(** * A shallow embedding of the chat agent's tool layer

    The development follows the TypeScript sources:
    - [Js]         the fragment of JavaScript semantics the code relies on
                   (thrown values, promises, [await], [try]/[catch],
                   truthiness);
    - [Tools]      [src/tools.ts]: the tool set, the bound executors and the
                   [executions] table of the confirmation-required tools;
    - [Messages]   the message log the server and the card share;
    - [Server]     [src/server.ts]: [Chat.executeTask] and the step budget;
    - [Card]       [src/components/tool-invocation-card]: the approval
                   controls;
    - [Lifecycle]  the history sanitizer and the approval-gated executor of
                   [src/utils.ts] and the step loop, none of whose text is
                   among the sources: they follow the specification;
    - [Sample]     concrete hosts, histories and models.
    The properties follow, one module per component. *)

From stdpp Require Import base strings list gmap.

Local Open Scope stdpp_scope.

(** ** JavaScript fragment *)
Module Js.

(** The double quote and the line feed, as one-character strings. *)
Definition dquote : string := String (Ascii.ascii_of_nat 34) EmptyString.
Definition nl : string := String (Ascii.ascii_of_nat 10) EmptyString.

(** A value raised by [throw]:
    - an instance of [Error] with its [name] and [message], as [new Error]
      and the language make them;
    - a [Symbol], with its description;
    - a value that cannot be converted to a string, with what the attempt
      throws (an object with no [toString], or one whose [toString] throws);
    - any other value, kept with the text its conversion gives. *)
Inductive Thrown : Type :=
| ErrorObj (name message : string)
| Raw (text : string)
| Symbol (description : string)
| Inconvertible (raised : Thrown).

(** [new Error(msg)]. *)
Definition new_Error (msg : string) : Thrown := ErrorObj "Error" msg.

(** [new TypeError(msg)]. *)
Definition new_TypeError (msg : string) : Thrown := ErrorObj "TypeError" msg.

Definition is_empty (s : string) : bool :=
  match s with EmptyString => true | String _ _ => false end.

(** How evaluating an expression completes. *)
Inductive Completion (A : Type) : Type :=
| Return (a : A)
| Throw (e : Thrown).
Arguments Return {A} a.
Arguments Throw {A} e.

(** What a template literal does with [${e}] (the conversion [ToString]):
    for an [Error] this is [Error.prototype.toString]; a [Symbol] is refused
    with a [TypeError]. *)
Definition to_String (e : Thrown) : Completion string :=
  match e with
  | ErrorObj name message =>
      Return (if is_empty name then message
              else if is_empty message then name
              else name +:+ ": " +:+ message)
  | Raw text => Return text
  | Symbol _ => Throw (new_TypeError "Cannot convert a Symbol value to a string")
  | Inconvertible raised => Throw raised
  end.

(** [String(e)]: the same conversion, except that a [Symbol] is described. *)
Definition String_of (e : Thrown) : Completion string :=
  match e with
  | Symbol description => Return ("Symbol(" +:+ description +:+ ")")
  | _ => to_String e
  end.

(** [e instanceof Error ? e.message : String(e)]. *)
Definition message_or_String (e : Thrown) : Completion string :=
  match e with
  | ErrorObj _ message => Return message
  | _ => String_of e
  end.

(** Truthiness of an optional string ([undefined] and the empty string are
    falsy). *)
Definition truthy (o : option string) : bool :=
  match o with
  | Some s => negb (is_empty s)
  | None => false
  end.

(** [${o}] for an optional string. *)
Definition render_opt (o : option string) : string :=
  match o with
  | Some s => s
  | None => "undefined"
  end.

(** A settled promise. *)
Inductive Promise (A : Type) : Type :=
| Fulfilled (a : A)
| Rejected (e : Thrown).
Arguments Fulfilled {A} a.
Arguments Rejected {A} e.

(** ** Computations with a trace of observable events *)
Section Exec.
Context {Ev : Type}.

Definition Exec (A : Type) : Type := Completion A * list Ev.

Definition ret {A} (a : A) : Exec A := (Return a, []).
Definition throw {A} (e : Thrown) : Exec A := (Throw e, []).
Definition emit (ev : Ev) : Exec unit := (Return tt, [ev]).

(** An expression that touches nothing outside: it completes, and leaves no
    event. *)
Definition eval {A} (c : Completion A) : Exec A := (c, []).

Definition bind {A B} (m : Exec A) (k : A -> Exec B) : Exec B :=
  match m with
  | (Return a, t) => let '(r, t') := k a in (r, t ++ t')
  | (Throw e, t) => (Throw e, t)
  end.

(** [try { m } catch (e) { h e }]. *)
Definition try_catch {A} (m : Exec A) (h : Thrown -> Exec A) : Exec A :=
  match m with
  | (Return a, t) => (Return a, t)
  | (Throw e, t) => let '(r, t') := h e in (r, t ++ t')
  end.

(** A call into the host: the event is recorded, then the call completes
    the way the host says. *)
Definition call {A} (ev : Ev) (c : Completion A) : Exec A := (c, [ev]).

(** [await p]. *)
Definition await {A} (p : Promise A) : Exec A :=
  match p with
  | Fulfilled a => ret a
  | Rejected e => throw e
  end.

(** The promise an [async] function hands to its caller. *)
Definition async {A} (m : Exec A) : Promise A * list Ev :=
  match m with
  | (Return a, t) => (Fulfilled a, t)
  | (Throw e, t) => (Rejected e, t)
  end.
End Exec.

Declare Scope exec_scope.
Delimit Scope exec_scope with exec.
Notation "'let*' x := m 'in' k" := (bind m (fun x => k))
  (at level 10, x pattern, m at level 100, k at level 200) : exec_scope.
Notation "'run' m 'then' k" := (bind m (fun _ => k))
  (at level 10, m at level 100, k at level 200) : exec_scope.

End Js.

(** ** src/tools.ts *)
Module Tools.
Import Js.
Local Open Scope exec_scope.

(** The input of [createCalendarEvent] (its zod object). *)
Record CalendarEventInput : Type := {
  title : string;
  description : option string;
  startTime : string;
  endTime : option string;
  location : option string;
  attendees : option (list string)
}.

(** What the code takes from the JavaScript host without defining it: dates
    and numbers with their rendering in a template literal, the rows
    [getSchedules] returns, and [JSON.stringify] on a parsed input. *)
Class Host : Type := {
  JsDate : Type;
  JsNumber : Type;
  JsSchedule : Type;
  Date_toString : JsDate -> string;
  Number_toString : JsNumber -> string;
  JSON_stringify : CalendarEventInput -> string
}.

Section WithHost.
Context `{Host}.

(** [when.type] of the schedule schema. *)
Inductive WhenType : Type := Scheduled | Delayed | Cron | NoSchedule.

#[export] Instance WhenType_eq_dec : EqDecision WhenType.
Proof. solve_decision. Defined.

Definition WhenType_text (t : WhenType) : string :=
  match t with
  | Scheduled => "scheduled"
  | Delayed => "delayed"
  | Cron => "cron"
  | NoSchedule => "no-schedule"
  end.

(** [when]: the code reads the fields [type], [date], [delayInSeconds]
    and [cron]; each of the last three may be [undefined]. *)
Record When : Type := {
  type : WhenType;
  date : option JsDate;
  delayInSeconds : option JsNumber;
  cron : option string
}.

(** The input of [scheduleTask] ([extendedScheduleSchema]). *)
Record ScheduleInput : Type := {
  dueDate : option string;
  when : When;
  task : string   (* the field [description] *)
}.

(** The first argument handed to [agent.schedule]. *)
Inductive SchedValue : Type :=
| VDate (d : JsDate)
| VNumber (n : JsNumber)
| VString (s : string).

(** [${input}]. *)
Definition render (input : option SchedValue) : string :=
  match input with
  | None => "undefined"
  | Some (VDate d) => Date_toString d
  | Some (VNumber n) => Number_toString n
  | Some (VString s) => s
  end.

(** The agent of the [agents] package, as the executors use it.
    [schedule] and [cancelSchedule] hand back promises; a call may also
    throw before it returns one. *)
Record Agent : Type := {
  schedule : option SchedValue -> string -> string ->
             Completion (Promise JsSchedule);
  getSchedules : Completion (option (list JsSchedule));
  cancelSchedule : string -> Completion (Promise bool)
}.

(** The three variables the calendar code reads from [process.env]. *)
Record GoogleEnv : Type := {
  GOOGLE_CLIENT_ID : option string;
  GOOGLE_CLIENT_SECRET : option string;
  GOOGLE_REFRESH_TOKEN : option string
}.

(** What surrounds an executor when it runs: [getCurrentAgent()],
    [process.env] (absent when [process] is undefined) and
    [createCalendarEvent] of [lib/google-calendar], an [async] function. *)
Record Runtime : Type := {
  currentAgent : option Agent;
  process_env : option GoogleEnv;
  createGoogleCalendarEvent :
    CalendarEventInput -> option GoogleEnv -> Promise string
}.

Inductive Level : Type := LLog | LError.

Inductive LogArg : Type :=
| LText (s : string)
| LThrown (e : Thrown).

(** What an executor does besides returning. *)
Inductive Event : Type :=
| Console (lvl : Level) (args : list LogArg)
| AgentSchedule (input : option SchedValue) (callback payload : string)
| AgentGetSchedules
| AgentCancelSchedule (taskId : string)
| GoogleCreate (input : CalendarEventInput) (env : option GoogleEnv).

(** What a tool returns: every executor returns a string, except
    [getScheduledTasks], which may return the rows themselves. *)
Inductive ToolOutput : Type :=
| OutText (s : string)
| OutSchedules (rows : list JsSchedule).

Definition Run (A : Type) : Type := @Exec Event A.
Definition Async : Type := (Promise ToolOutput * list Event)%type.

(** The [TypeError] raised by reading a member of [undefined]. *)
Definition undefined_member (member : string) : Thrown :=
  new_TypeError ("Cannot read properties of undefined (reading '" +:+ member +:+ "')").

(** [agent!.member]. *)
Definition deref (agent : option Agent) (member : string) : Run Agent :=
  match agent with
  | Some a => ret a
  | None => throw (undefined_member member)
  end.

(** The local helper [throwError] of [scheduleTask]. *)
Definition throwError {A} (msg : string) : Run A := throw (new_Error msg).

(** *** The bound executors *)

(** [getLocalTime.execute]. *)
Definition getLocalTime_execute (_ : Runtime) (location : string) : Async :=
  async (run emit (Console LLog [LText ("Getting local time for " +:+ location)])
         then ret (OutText "10am")).

(** [taskDescription] in [scheduleTask.execute]: the description, with the
    due date when one is given. *)
Definition taskDescription (a : ScheduleInput) : string :=
  if truthy (dueDate a)
  then task a +:+ " (Due: " +:+ render_opt (dueDate a) +:+ ")"
  else task a.

(** The value of [input] in [scheduleTask.execute] when its type is one of
    the three the conditional chain names. *)
Definition schedule_value (w : When) : option SchedValue :=
  match type w with
  | Scheduled => VDate <$> date w
  | Delayed => VNumber <$> delayInSeconds w
  | Cron => VString <$> cron w
  | NoSchedule => None
  end.

(** The body of [scheduleTask.execute].  The [catch] block returns from the
    function: the [try] statement yields [Some text] for that early return
    and [None] when control falls through. *)
Definition scheduleTask_body (rt : Runtime) (a : ScheduleInput) : Run ToolOutput :=
  let agent := currentAgent rt in
  if decide (type (when a) = NoSchedule) then
    ret (OutText "Not a valid schedule input")
  else
    let* input :=
      match type (when a) with
      | Scheduled => ret (VDate <$> date (when a))
      | Delayed => ret (VNumber <$> delayInSeconds (when a))
      | Cron => ret (VString <$> cron (when a))
      | NoSchedule => throwError "not a valid schedule input"
      end in
    let taskDescription := taskDescription a in
    let* early :=
      try_catch
        (let* ag := deref agent "schedule" in
         run call (AgentSchedule input "executeTask" taskDescription)
                  (schedule ag input "executeTask" taskDescription)
         then ret None)
        (fun error =>
           run emit (Console LError [LText "error scheduling task"; LThrown error]) then
           let* text := eval (to_String error) in
           ret (Some ("Error scheduling task: " +:+ text))) in
    match early with
    | Some text => ret (OutText text)
    | None =>
        let response :=
          "Task scheduled for type " +:+ dquote +:+ WhenType_text (type (when a))
            +:+ dquote +:+ ": " +:+ render input in
        ret (OutText (if truthy (dueDate a)
                      then response +:+ " with due date: " +:+ render_opt (dueDate a)
                      else response))
    end.

Definition scheduleTask_execute (rt : Runtime) (a : ScheduleInput) : Async :=
  async (scheduleTask_body rt a).

(** [getScheduledTasks.execute]. *)
Definition getScheduledTasks_execute (rt : Runtime) (_ : unit) : Async :=
  let agent := currentAgent rt in
  async
    (try_catch
       (let* ag := deref agent "getSchedules" in
        let* tasks := call AgentGetSchedules (getSchedules ag) in
        match tasks with
        | None | Some [] => ret (OutText "No scheduled tasks found.")
        | Some rows => ret (OutSchedules rows)
        end)
       (fun error =>
          run emit (Console LError [LText "Error listing scheduled tasks"; LThrown error]) then
          let* text := eval (to_String error) in
          ret (OutText ("Error listing scheduled tasks: " +:+ text)))).

(** [cancelScheduledTask.execute]. *)
Definition cancelScheduledTask_execute (rt : Runtime) (taskId : string) : Async :=
  let agent := currentAgent rt in
  async
    (try_catch
       (let* ag := deref agent "cancelSchedule" in
        let* p := call (AgentCancelSchedule taskId) (cancelSchedule ag taskId) in
        run await p
        then ret (OutText ("Task " +:+ taskId +:+ " has been successfully canceled.")))
       (fun error =>
          run emit (Console LError [LText "Error canceling scheduled task"; LThrown error]) then
          let* text := eval (to_String error) in
          ret (OutText ("Error canceling task " +:+ taskId +:+ ": " +:+ text)))).

(** *** The implementations of the confirmation-required tools *)

(** [executions.getWeatherInformation]. *)
Definition getWeatherInformation_run (_ : Runtime) (city : string) : Async :=
  async (run emit (Console LLog [LText ("Getting weather information for " +:+ city)])
         then ret (OutText ("The weather in " +:+ city +:+ " is sunny"))).

Definition mark (o : option string) : LogArg :=
  LText (if truthy o then "✓" else "✗").

Definition credentials_missing : string :=
  "Google Calendar credentials not found. "
    +:+ "Make sure GOOGLE_CLIENT_ID, GOOGLE_CLIENT_SECRET, and GOOGLE_REFRESH_TOKEN "
    +:+ "are set in your .dev.vars file and restart the dev server.".

(** The text around the error message in the value the [catch] block of
    [executions.createCalendarEvent] returns. *)
Definition failure_prefix : string := "❌ Failed to create calendar event: ".
Definition failure_suffix : string :=
  nl +:+ nl +:+ "Possible causes:" +:+ nl
    +:+ "- Credentials missing from .dev.vars" +:+ nl
    +:+ "- Need to restart dev server after adding credentials" +:+ nl
    +:+ "- Invalid or expired refresh token" +:+ nl
    +:+ "- Google Calendar API not enabled" +:+ nl
    +:+ "- Network error" +:+ nl +:+ nl
    +:+ "Check the server console for more details.".

(** [executions.createCalendarEvent]. *)
Definition createCalendarEvent_run (rt : Runtime) (input : CalendarEventInput) : Async :=
  async
    (try_catch
       (run emit (Console LLog [LText "Creating calendar event with input:";
                                LText (JSON_stringify input)]) then
        let* env :=
          match process_env rt with
          | Some e =>
              run emit (Console LLog [LText "Using process.env for credentials"])
              then ret (Some e)
          | None => ret None
          end in
        let id := env ≫= GOOGLE_CLIENT_ID in
        let secret := env ≫= GOOGLE_CLIENT_SECRET in
        let token := env ≫= GOOGLE_REFRESH_TOKEN in
        if negb (truthy id) || negb (truthy secret) || negb (truthy token) then
          run emit (Console LError [LText "❌ Missing Google Calendar credentials!"]) then
          run emit (Console LLog [LText "CLIENT_ID:"; mark id]) then
          run emit (Console LLog [LText "CLIENT_SECRET:"; mark secret]) then
          run emit (Console LLog [LText "REFRESH_TOKEN:"; mark token]) then
          throw (new_Error credentials_missing)
        else
          let* p := call (GoogleCreate input env)
                         (Return (createGoogleCalendarEvent rt input env)) in
          let* result := await p in
          run emit (Console LLog [LText "✅ Calendar event created successfully:";
                                  LText result])
          then ret (OutText result))
       (fun error =>
          let* errorMessage := eval (message_or_String error) in
          run emit (Console LError [LText "❌ Error in createCalendarEvent:";
                                    LText errorMessage]) then
          run emit (Console LError [LText "Full error:"; LThrown error]) then
          ret (OutText (failure_prefix +:+ errorMessage +:+ failure_suffix)))).

(** *** The two tables *)

(** A tool as [tool({...})] builds it: [execute] is absent on a tool that
    waits for a human decision. *)
Record Tool : Type := {
  tool_description : string;
  tool_input : Type;
  execute : option (Runtime -> tool_input -> Async)
}.

Definition getWeatherInformation : Tool := {|
  tool_description := "show the weather in a given city to the user";
  tool_input := string;
  execute := None
|}.

Definition getLocalTime : Tool := {|
  tool_description := "get the local time for a specified location";
  tool_input := string;
  execute := Some getLocalTime_execute
|}.

Definition scheduleTask : Tool := {|
  tool_description := "A tool to schedule a task to be executed at a later time. Can optionally include a due date for the task.";
  tool_input := ScheduleInput;
  execute := Some scheduleTask_execute
|}.

Definition getScheduledTasks : Tool := {|
  tool_description := "List all tasks that have been scheduled";
  tool_input := unit;
  execute := Some getScheduledTasks_execute
|}.

Definition cancelScheduledTask : Tool := {|
  tool_description := "Cancel a scheduled task using its ID";
  tool_input := string;
  execute := Some cancelScheduledTask_execute
|}.

Definition createCalendarEvent : Tool := {|
  tool_description := "CALL THIS TOOL when the user wants to: block time, schedule a meeting, add to calendar, create calendar event, or put something on their schedule. This creates real events in their Google Calendar. REQUIRED when user mentions calendar, meeting, appointment, or scheduling.";
  tool_input := CalendarEventInput;
  execute := None
|}.

(** [export const tools], in the order of its keys. *)
Definition tools : list (string * Tool) := [
  ("getWeatherInformation", getWeatherInformation);
  ("getLocalTime", getLocalTime);
  ("scheduleTask", scheduleTask);
  ("getScheduledTasks", getScheduledTasks);
  ("cancelScheduledTask", cancelScheduledTask);
  ("createCalendarEvent", createCalendarEvent)
].

(** An entry of [executions]: the function run once the human has approved. *)
Record Execution : Type := {
  execution_input : Type;
  execution_run : Runtime -> execution_input -> Async
}.

(** [export const executions], in the order of its keys. *)
Definition executions : list (string * Execution) := [
  ("getWeatherInformation",
   {| execution_input := string; execution_run := getWeatherInformation_run |});
  ("createCalendarEvent",
   {| execution_input := CalendarEventInput; execution_run := createCalendarEvent_run |})
].

(** The names of the tools that carry an [execute] function, and of those
    that do not. *)
Definition has_execute (t : Tool) : bool :=
  match execute t with Some _ => true | None => false end.

Definition autonomous_names : list string :=
  (filter (fun e => has_execute e.2 = true) tools).*1.

Definition confirmed_names : list string :=
  (filter (fun e => has_execute e.2 = false) tools).*1.

(** The credentials test of [executions.createCalendarEvent]: the three
    variables are set and not empty. *)
Definition credentials_loaded (rt : Runtime) : bool :=
  truthy (process_env rt ≫= GOOGLE_CLIENT_ID)
  && truthy (process_env rt ≫= GOOGLE_CLIENT_SECRET)
  && truthy (process_env rt ≫= GOOGLE_REFRESH_TOKEN).

(** The text of a tool's output, when it is a string. *)
Definition shown (r : Async) : option string :=
  match r.1 with
  | Fulfilled (OutText s) => Some s
  | _ => None
  end.

(** [needle] occurs in [hay] verbatim. *)
Definition contains (needle hay : string) : Prop :=
  exists before after, hay = before +:+ needle +:+ after.

(** How many entries of a table carry a given key. *)
Definition entries {V} (name : string) (table : list (string * V)) : nat :=
  length (filter (fun e => e.1 = name) table).
End WithHost.
End Tools.

(** ** The message log *)
Module Messages.

Inductive Role : Type := User | Assistant | System.

Inductive ToolState : Type := InputStreaming | InputAvailable | OutputAvailable.

#[export] Instance ToolState_eq_dec : EqDecision ToolState.
Proof. solve_decision. Defined.

(** A tool invocation part; [input] and [output] are kept as their JSON text. *)
Record ToolInvocation : Type := {
  toolCallId : string;
  toolName : string;
  state : ToolState;
  input : string;
  output : option string
}.

Inductive Part : Type :=
| Text (content : string)
| Tool (inv : ToolInvocation).

Record Metadata : Type := { createdAt : Z }.

Record Message : Type := {
  id : string;
  role : Role;
  parts : list Part;
  metadata : option Metadata
}.

Definition with_parts (m : Message) (ps : list Part) : Message :=
  {| id := id m; role := role m; parts := ps; metadata := metadata m |}.

End Messages.

(** ** src/server.ts *)
Module Server.
Import Messages.

(** The argument of [stepCountIs] in [stopWhen: stepCountIs(10)]. *)
Definition stepBudget : nat := 10.

(** [Chat.executeTask]: the list it hands to [saveMessages].  [this_messages]
    is [this.messages]; [fresh] is what [generateId()] returns and [now] what
    [new Date()] reads, in milliseconds. *)
Definition executeTask (this_messages : list Message) (fresh : string) (now : Z)
    (description : string) : list Message :=
  this_messages ++ [
    {| id := fresh;
       role := User;
       parts := [Text ("Running scheduled task: " +:+ description)];
       metadata := Some {| createdAt := now |} |}
  ].


(** The message [executeTask] is expected to add. *)
Definition announcement (fresh : string) (now : Z) (description : string) : Message :=
  {| id := fresh;
     role := User;
     parts := [Text ("Running scheduled task: " +:+ description)];
     metadata := Some {| createdAt := now |} |}.

End Server.

(** ** src/components/tool-invocation-card *)
Module Card.
Import Messages.

Section WithApproval.
(** [APPROVAL.YES] and [APPROVAL.NO] of [@/shared]. *)
Variables APPROVAL_YES APPROVAL_NO : string.

Record ToolUIPart : Type := {
  part_type : string;
  part_state : ToolState;
  part_input : string;
  part_output : option string
}.

Record Props : Type := {
  toolUIPart : ToolUIPart;
  toolCallId : string;
  needsConfirmation : bool
}.

(** The argument of [onSubmit]. *)
Record Submission : Type := {
  submitted_for : string;   (* [toolCallId] *)
  result : string
}.

(** What a click does: flip [isExpanded], or call [onSubmit]. *)
Inductive Effect : Type :=
| SetIsExpanded (b : bool)
| OnSubmit (s : Submission).

(** A clickable element of the card, with its caption. *)
Record Control : Type := {
  caption : string;
  onClick : Effect
}.

(** The clickable elements [ToolInvocationCard] renders, in document order:
    the header that toggles the card, then the two buttons of the block
    guarded by [needsConfirmation && toolUIPart.state === "input-available"].
    Collapsing the card hides that block with styles only. *)
Definition controls (p : Props) (isExpanded : bool) : list Control :=
  {| caption := "Tool:"; onClick := SetIsExpanded (negb isExpanded) |}
  :: (if needsConfirmation p && bool_decide (part_state (toolUIPart p) = InputAvailable)
      then [ {| caption := "Reject";
                onClick := OnSubmit {| submitted_for := toolCallId p;
                                       result := APPROVAL_NO |} |};
             {| caption := "Approve";
                onClick := OnSubmit {| submitted_for := toolCallId p;
                                       result := APPROVAL_YES |} |} ]
      else []).

(** What clicking the control with a given caption does. *)
Definition click (p : Props) (isExpanded : bool) (what : string) : option Effect :=
  (fun hit => onClick hit.2)
    <$> list_find (fun c => caption c = what) (controls p isExpanded).

End WithApproval.
End Card.

(** ** src/utils.ts and the step loop *)
Module Lifecycle.
Import Messages.

(** Modelled from the spec: a tool invocation is unresolved while its state
    is input-streaming or input-available ([utils.ts], which holds
    [cleanupMessages], is not among the sources). *)
Definition is_pending (p : Part) : bool :=
  match p with
  | Text _ => false
  | Tool inv => bool_decide (state inv = InputStreaming)
                || bool_decide (state inv = InputAvailable)
  end.

Section Sanitizer.
(** Modelled from the spec: which parts count as meaningful is left open by
    the spec (section 4.1 only names the last meaningful part of the last
    message), so the sanitizer is stated for any such test. *)
Variable meaningful : Part -> bool.

(** Modelled from the spec: the approval candidate is the last meaningful
    part of the last message; [p] is in that place when it is meaningful and
    no meaningful part follows it. *)
Definition is_candidate (p : Part) (later : list Part) : bool :=
  meaningful p && negb (existsb meaningful later).

(** Modelled from the spec: in a message that is not the last one every
    unresolved invocation is dropped (the body of [cleanupMessages] is not
    among the sources). *)
Definition drop_pending (ps : list Part) : list Part :=
  filter (fun p => is_pending p = false) ps.

(** Modelled from the spec: in the last message an unresolved invocation is
    dropped unless it is the approval candidate. *)
Fixpoint sanitize_last (ps : list Part) : list Part :=
  match ps with
  | [] => []
  | p :: later =>
      if is_pending p && negb (is_candidate p later)
      then sanitize_last later
      else p :: sanitize_last later
  end.

(** Modelled from the spec: [cleanupMessages] of [utils.ts] (section 4.1,
    History Sanitizer): drop the dangling invocations, then remove a message
    left with no part. *)
Fixpoint cleanupMessages (H : list Message) : list Message :=
  match H with
  | [] => []
  | m :: rest =>
      let ps := match rest with
                | [] => sanitize_last (parts m)
                | _ :: _ => drop_pending (parts m)
                end in
      match ps with
      | [] => cleanupMessages rest
      | _ :: _ => with_parts m ps :: cleanupMessages rest
      end
  end.
End Sanitizer.

(** Modelled from the spec: a tool executor, [execute(toolName, input) ->
    result | throws] (section 6). *)
Definition Executor : Type := string -> Js.Completion string.

(** Modelled from the spec: a list of parts none of which is unresolved. *)
Definition settled (ps : list Part) : Prop := Forall (fun p => is_pending p = false) ps.

(** Modelled from the spec: the two classes of the Tool Registry (sections
    4.2 and 9): an autonomous tool carries its executor, a confirmed tool
    carries none. *)
Inductive ToolDefinition : Type :=
| AutonomousTool (executor : Executor)
| ConfirmedTool.

(** Modelled from the spec: the value of an ApprovalDecision (section 3). *)
Inductive Decision : Type := APPROVED | REJECTED.

(** Modelled from the spec: a tool-state delta of the outbound stream
    (section 4.5). *)
Record Delta : Type := {
  delta_for : string;
  delta_state : ToolState;
  delta_output : option string
}.

(** Modelled from the spec: what one pass of the Approval-Gated Executor has
    done so far: whether it met the paused call, the deltas it emitted and
    the executors it invoked (tool name, call id, input). *)
Record Pass : Type := {
  stopped : bool;
  deltas : list Delta;
  invoked : list (string * string * string)
}.

(** Modelled from the spec: the state in which a pass begins. *)
Definition start : Pass := {| stopped := false; deltas := []; invoked := [] |}.

Section Executor.
(** Modelled from the spec: the registry, the executors run after a human
    decision ([executions] at the call site in [server.ts]), the recorded
    decisions by call id, the fixed cancellation marker and the formatting
    of an executor's failure; the spec fixes none of their values. *)
Variable registry : gmap string ToolDefinition.
Variable executions : gmap string Executor.
Variable decisions : gmap string Decision.
Variable cancellation_marker : string.
Variable format_error : Js.Thrown -> string.

(** Modelled from the spec: the transition to output-available. *)
Definition finish (inv : ToolInvocation) (out : string) : ToolInvocation :=
  {| toolCallId := toolCallId inv; toolName := toolName inv;
     state := OutputAvailable; input := input inv; output := Some out |}.

(** Modelled from the spec: a resolved invocation is announced by a delta
    (sections 4.3 and 4.5). *)
Definition emit_delta (inv : ToolInvocation) (st : Pass) : Pass :=
  {| stopped := stopped st;
     deltas := deltas st ++ [ {| delta_for := toolCallId inv;
                                 delta_state := state inv;
                                 delta_output := output inv |} ];
     invoked := invoked st |}.

(** Modelled from the spec: invoke executor(input); its result, or the
    formatted error when it throws, becomes the output (section 4.3). *)
Definition run_executor (ex : Executor) (inv : ToolInvocation) (st : Pass)
    : Part * Pass :=
  let out := match ex (input inv) with
             | Js.Return r => r
             | Js.Throw e => format_error e
             end in
  let inv' := finish inv out in
  (Tool inv',
   emit_delta inv'
     {| stopped := stopped st; deltas := deltas st;
        invoked := invoked st ++ [(toolName inv, toolCallId inv, input inv)] |}).

(** Modelled from the spec: the part is in state input-available with no
    output. *)
Definition awaits_resolution (inv : ToolInvocation) : bool :=
  bool_decide (state inv = InputAvailable) && bool_decide (output inv = None).

(** Modelled from the spec: the part is an invocation the pass has to
    resolve. *)
Definition awaiting (p : Part) : bool :=
  match p with
  | Text _ => false
  | Tool inv => awaits_resolution inv
  end.

(** Modelled from the spec: the invocations of a history that are in a
    non-terminal state; the single-outstanding invariant (section 3) allows
    at most one. *)
Definition outstanding (H : list Message) : nat :=
  length (filter (fun p => is_pending p = true) (H ≫= parts)).

Definition invariant_violated (H : list Message) : bool :=
  bool_decide (1 < outstanding H).

(** Modelled from the spec: stop advancing further parts this pass. *)
Definition halt (st : Pass) : Pass :=
  {| stopped := true; deltas := deltas st; invoked := invoked st |}.

(** Modelled from the spec: one part of the Approval-Gated Executor's pass
    (section 4.3; [processToolCalls] of [utils.ts] is not among the
    sources).  A part whose tool the registry does not know, and an approved
    call with no entry in [executions], are left as they are.  When the
    single-outstanding invariant is violated ([only_earliest]), the pass
    handles the earliest unresolved call and leaves the rest. *)
Definition resolve_part (only_earliest : bool) (p : Part) (st : Pass) : Part * Pass :=
  match p with
  | Text _ => (p, st)
  | Tool inv =>
      if stopped st || negb (awaits_resolution inv) then (p, st)
      else
        let '(p', st') :=
          match registry !! toolName inv with
          | None => (p, st)
          | Some (AutonomousTool ex) => run_executor ex inv st
          | Some ConfirmedTool =>
              match decisions !! toolCallId inv with
              | None => (p, halt st)
              | Some REJECTED =>
                  let inv' := finish inv cancellation_marker in
                  (Tool inv', emit_delta inv' st)
              | Some APPROVED =>
                  match executions !! toolName inv with
                  | Some ex => run_executor ex inv st
                  | None => (p, st)
                  end
              end
          end in
        (p', if only_earliest then halt st' else st')
  end.

(** Modelled from the spec: parts are processed in document order. *)
Fixpoint resolve_parts (only_earliest : bool) (ps : list Part) (st : Pass)
    : list Part * Pass :=
  match ps with
  | [] => ([], st)
  | p :: later =>
      let '(p', st1) := resolve_part only_earliest p st in
      let '(later', st2) := resolve_parts only_earliest later st1 in
      (p' :: later', st2)
  end.

(** Modelled from the spec: messages are processed in order. *)
Fixpoint resolve_messages (only_earliest : bool) (H : list Message) (st : Pass)
    : list Message * Pass :=
  match H with
  | [] => ([], st)
  | m :: rest =>
      let '(ps, st1) := resolve_parts only_earliest (parts m) st in
      let '(rest', st2) := resolve_messages only_earliest rest st1 in
      (with_parts m ps :: rest', st2)
  end.

(** Modelled from the spec: one pass of [processToolCalls] over a sanitized
    history. *)
Definition processToolCalls (H : list Message) : list Message * Pass :=
  resolve_messages (invariant_violated H) H start.

(** Modelled from the spec: how often a pass invoked the executor bound to a
    tool name. *)
Definition invocations (name : string) (st : Pass) : nat :=
  length (filter (fun e => e.1.1 = name) (invoked st)).

(** Modelled from the spec: a pending confirmed invocation: a part in state
    input-available with no output whose tool the registry lists as
    confirmed. *)
Definition pending_confirmed (p : Part) : bool :=
  match p with
  | Text _ => false
  | Tool inv =>
      awaits_resolution inv
      && match registry !! toolName inv with
         | Some ConfirmedTool => true
         | _ => false
         end
  end.

(** Modelled from the spec: the pass has invoked no executor under the name
    of a confirmed tool. *)
Definition ran_no_confirmed (st : Pass) : Prop :=
  Forall (fun e => registry !! e.1.1 <> Some ConfirmedTool) (invoked st).

(** *** Step Loop Controller *)

(** Modelled from the spec: where a turn ends (section 4.4; the loop itself
    runs inside [streamText], which is not among the sources). *)
Inductive LoopState : Type := TOOL_PENDING | DONE.

(** Modelled from the spec: what a turn surfaces when it ends: its final
    state, the steps it took, the history and the deltas streamed. *)
Record Turn : Type := {
  outcome : LoopState;
  steps : nat;
  history : list Message;
  streamed : list Delta
}.

(** Modelled from the spec: the stop condition [stepCountIs(n)] named at the
    call site: the budget is exhausted once the steps taken number [n]. *)
Definition stepCountIs (n : nat) (taken : nat) : bool := bool_decide (taken = n).

(** Modelled from the spec: the part is a tool invocation. *)
Definition is_tool (p : Part) : bool :=
  match p with Tool _ => true | Text _ => false end.

(** Modelled from the spec: some invocation of the history is not in state
    output-available. *)
Definition unresolved (H : list Message) : bool :=
  existsb (fun m => existsb is_pending (parts m)) H.

(** Modelled from the spec: the Step Loop Controller (section 4.4).  A step
    asks the model for its next message, appends it, and resolves what can
    be resolved with one pass of the executor.  The turn is DONE when the
    message proposes no call or the budget is exhausted, TOOL_PENDING when a
    call is left unresolved; otherwise the loop generates again.  [fuel]
    bounds the recursion only. *)
Fixpoint step_loop (fuel : nat) (budget : nat) (model : list Message -> Message)
    (taken : nat) (H : list Message) (out : list Delta) : option Turn :=
  match fuel with
  | O => None
  | S fuel' =>
      let m := model H in
      let '(H', pass) := processToolCalls (H ++ [m]) in
      let taken' := S taken in
      let out' := out ++ deltas pass in
      if negb (existsb is_tool (parts m)) then
        Some {| outcome := DONE; steps := taken'; history := H'; streamed := out' |}
      else if unresolved H' then
        Some {| outcome := TOOL_PENDING; steps := taken'; history := H'; streamed := out' |}
      else if stepCountIs budget taken' then
        Some {| outcome := DONE; steps := taken'; history := H'; streamed := out' |}
      else step_loop fuel' budget model taken' H' out'
  end.

(** Modelled from the spec: a part the loop resolves inline: text, or a new
    call (input-available, no output) of an autonomous tool. *)
Definition resolves_inline (p : Part) : bool :=
  match p with
  | Text _ => true
  | Tool inv =>
      awaits_resolution inv
      && match registry !! toolName inv with
         | Some (AutonomousTool _) => true
         | _ => false
         end
  end.

(** Modelled from the spec: the message proposes a new autonomous call: one
    invocation, of an autonomous tool, besides any text. *)
Definition proposes_autonomous (m : Message) : bool :=
  bool_decide (length (filter (fun p => is_tool p = true) (parts m)) = 1)
  && forallb resolves_inline (parts m).

(** Modelled from the spec: what a part is once the loop has resolved it
    inline (section 4.3): a call of an autonomous tool is output-available
    with the result of its executor, or with the formatted error when the
    executor throws; any other part is as it was. *)
Definition settle (p : Part) : Part :=
  match p with
  | Text _ => p
  | Tool inv =>
      match registry !! toolName inv with
      | Some (AutonomousTool ex) =>
          Tool (finish inv (match ex (input inv) with
                            | Js.Return r => r
                            | Js.Throw e => format_error e
                            end))
      | _ => p
      end
  end.

(** Modelled from the spec: the message of one step as the history keeps
    it: what the model generated, with its calls settled. *)
Definition answer (m : Message) : Message := with_parts m (settle <$> parts m).

(** Modelled from the spec: the delta that announces an invocation (section
    4.5); a text part has none. *)
Definition delta_of (p : Part) : option Delta :=
  match p with
  | Text _ => None
  | Tool inv => Some {| delta_for := toolCallId inv;
                        delta_state := state inv;
                        delta_output := output inv |}
  end.

(** Modelled from the spec: the deltas of the invocations of a list of
    messages, in the order of the messages and of their parts. *)
Definition announced (H : list Message) : list Delta :=
  omap delta_of (H ≫= parts).

(** Modelled from the spec: a turn, composed as [Chat.onChatMessage] of
    [server.ts] composes it: [cleanupMessages(this.messages)], then
    [processToolCalls] on the result, then the step loop ([streamText]) on
    the processed messages with [stopWhen: stepCountIs(10)].  The three
    components are the ones modelled above. *)
Definition onChatMessage (meaningful : Part -> bool) (fuel : nat)
    (model : list Message -> Message) (this_messages : list Message) : option Turn :=
  let cleanedMessages := cleanupMessages meaningful this_messages in
  let '(processedMessages, pass) := processToolCalls cleanedMessages in
  step_loop fuel Server.stepBudget model 0 processedMessages (deltas pass).
End Executor.
End Lifecycle.

(** ** Concrete hosts and inputs, used to run the definitions *)
Module Sample.
Import Js Tools Messages.

#[export] Instance host : Host := {|
  JsDate := Z;
  JsNumber := Z;
  JsSchedule := string;
  Date_toString := fun _ => "Tue Nov 03 2026";
  Number_toString := fun _ => "60";
  JSON_stringify := fun i => "{ title: " +:+ title i +:+ " }"
|}.

(** An agent whose every operation fails. *)
Definition failing_agent : Agent := {|
  schedule := fun _ _ _ => Throw (new_Error "storage is full");
  getSchedules := Throw (new_Error "storage is full");
  cancelSchedule := fun _ => Return (Rejected (new_Error "no such task"))
|}.

(** An agent whose [schedule] hands back a promise that rejects. *)
Definition rejecting_agent : Agent := {|
  schedule := fun _ _ _ => Return (Rejected (new_Error "Invalid schedule type"));
  getSchedules := Return None;
  cancelSchedule := fun _ => Return (Fulfilled true)
|}.

Definition credentials : GoogleEnv := {|
  GOOGLE_CLIENT_ID := Some "id";
  GOOGLE_CLIENT_SECRET := Some "secret";
  GOOGLE_REFRESH_TOKEN := Some "token"
|}.

(** A runtime in which the agent fails and Google refuses the token. *)
Definition failing_runtime : Runtime := {|
  currentAgent := Some failing_agent;
  process_env := Some credentials;
  createGoogleCalendarEvent := fun _ _ =>
    Rejected (new_Error "Failed to get access token: invalid_grant")
|}.

Definition rejecting_runtime : Runtime := {|
  currentAgent := Some rejecting_agent;
  process_env := None;
  createGoogleCalendarEvent := fun _ _ => Fulfilled "created"
|}.

Definition in_a_minute : ScheduleInput := {|
  dueDate := None;
  when := {| type := Delayed; date := None; delayInSeconds := Some 60%Z; cron := None |};
  task := "stretch"
|}.

Definition no_schedule : ScheduleInput := {|
  dueDate := Some "Friday";
  when := {| type := NoSchedule; date := None; delayInSeconds := None; cron := None |};
  task := "stretch"
|}.

Definition standup : CalendarEventInput := {|
  title := "Standup";
  description := None;
  startTime := "tomorrow at 9am";
  endTime := None;
  location := None;
  attendees := None
|}.

(** A history with one confirmed call awaiting its decision. *)
Definition calendar_call : ToolInvocation := {|
  toolCallId := "call-1";
  toolName := "createCalendarEvent";
  state := InputAvailable;
  input := "{}";
  output := None
|}.

Definition asking : list Message := [
  {| id := "m1"; role := User; parts := [Text "block my calendar"]; metadata := None |};
  {| id := "m2"; role := Assistant;
     parts := [Text "I will add the event"; Tool calendar_call]; metadata := None |}
].

Definition registry : gmap string Lifecycle.ToolDefinition :=
  {[ "getLocalTime" := Lifecycle.AutonomousTool (fun _ => Return "10am");
     "createCalendarEvent" := Lifecycle.ConfirmedTool ]}.

Definition executions : gmap string Lifecycle.Executor :=
  {[ "createCalendarEvent" := (fun _ => Return "OK") : Lifecycle.Executor ]}.

Definition rejections : gmap string Lifecycle.Decision :=
  {[ "call-1" := Lifecycle.REJECTED ]}.

(** The user's new message. *)
Definition question : Message :=
  {| id := "m1"; role := User; parts := [Text "what time is it?"]; metadata := None |}.

(** A model that proposes a call of [getLocalTime] whatever the history. *)
Definition clock_model (H : list Message) : Message := {|
  id := "gen";
  role := Assistant;
  parts := [Tool {| toolCallId := "call"; toolName := "getLocalTime";
                    state := InputAvailable; input := "{}"; output := None |}];
  metadata := None
|}.

(** A card for a calendar event that awaits its decision. *)
Definition pending_card : Card.Props := {|
  Card.toolUIPart := {| Card.part_type := "tool-createCalendarEvent";
                   Card.part_state := InputAvailable;
                   Card.part_input := "{}";
                   Card.part_output := None |};
  Card.toolCallId := "call-1";
  Card.needsConfirmation := true
|}.

(** An executor's failure as the output of its call. *)
Definition format_error (e : Thrown) : string :=
  match to_String e with
  | Return text => "Error: " +:+ text
  | Throw _ => "Error"
  end.

(** Every part other than an empty text counts as meaningful. *)
Definition meaningful (p : Part) : bool :=
  match p with
  | Text content => negb (is_empty content)
  | Tool _ => true
  end.

End Sample.

(** ** What a run of an executor did and said *)
Module Observe.
Import Js Tools.

Section WithHost.
Context `{Host}.

(** The calls into the agent among the events of a run. *)
Definition is_agent_call (ev : Event) : bool :=
  match ev with
  | AgentSchedule _ _ _ | AgentGetSchedules | AgentCancelSchedule _ => true
  | Console _ _ | GoogleCreate _ _ => false
  end.

Definition agent_calls (trace : list Event) : list Event :=
  List.filter is_agent_call trace.

(** The calls of [createCalendarEvent] of [lib/google-calendar]. *)
Definition is_google_call (ev : Event) : bool :=
  match ev with
  | GoogleCreate _ _ => true
  | _ => false
  end.

Definition google_calls (trace : list Event) : list Event :=
  List.filter is_google_call trace.

(** The text [scheduleTask.execute] builds after the [try] statement:
    [response], with the due date when one is given. *)
Definition scheduled_text (a : ScheduleInput) : string :=
  let response :=
    "Task scheduled for type " +:+ dquote +:+ WhenType_text (type (when a))
      +:+ dquote +:+ ": " +:+ render (schedule_value (when a)) in
  if truthy (dueDate a)
  then response +:+ " with due date: " +:+ render_opt (dueDate a)
  else response.

(** The same input with [dueDate] left out. *)
Definition without_due (a : ScheduleInput) : ScheduleInput :=
  {| dueDate := None; when := when a; task := task a |}.

(** The text [cancelScheduledTask.execute] returns from its [try] block. *)
Definition canceled_text (taskId : string) : string :=
  "Task " +:+ taskId +:+ " has been successfully canceled.".

End WithHost.
End Observe.

(** ** More concrete inputs *)
Module SampleMore.
Import Js Tools Sample.

(** An agent with two scheduled rows, whose [cancelSchedule] finds nothing. *)
Definition busy_agent : Agent := {|
  schedule := fun _ _ _ => Return (Fulfilled "row-3");
  getSchedules := Return (Some ["row-1"; "row-2"]);
  cancelSchedule := fun _ => Return (Fulfilled false)
|}.

Definition busy_runtime : Runtime := {|
  currentAgent := Some busy_agent;
  process_env := Some credentials;
  createGoogleCalendarEvent := fun _ _ => Fulfilled "created"
|}.

(** An agent whose failures are Symbols, and a calendar that rejects with
    an object no string can be made of. *)
Definition symbol_agent : Agent := {|
  schedule := fun _ _ _ => Throw (Symbol "busy");
  getSchedules := Throw (Symbol "busy");
  cancelSchedule := fun _ => Return (Rejected (Symbol "busy"))
|}.

Definition no_primitive : Thrown :=
  Inconvertible (new_TypeError "Cannot convert object to primitive value").

Definition symbol_runtime : Runtime := {|
  currentAgent := Some symbol_agent;
  process_env := Some credentials;
  createGoogleCalendarEvent := fun _ _ => Rejected no_primitive
|}.

(** A delayed task whose due date is the empty string. *)
Definition blank_due : ScheduleInput := {|
  dueDate := Some EmptyString;
  when := {| type := Delayed; date := None; delayInSeconds := Some 60%Z; cron := None |};
  task := "stretch"
|}.

End SampleMore.

(** ** Operations on strings *)
(** A string is the sequence of the bytes of its UTF-8 form.  Searching for a
    well-formed text in another gives the same answer on these bytes as on
    the code units JavaScript sees. *)
Module Text.

Definition code (c : Ascii.ascii) : nat := Ascii.nat_of_ascii c.

(** [hay.startsWith(needle)]. *)
Fixpoint starts_with (needle hay : string) : bool :=
  match needle, hay with
  | EmptyString, _ => true
  | String _ _, EmptyString => false
  | String a needle', String b hay' =>
      Nat.eqb (code a) (code b) && starts_with needle' hay'
  end.

(** [hay.includes(needle)]. *)
Fixpoint includes (needle hay : string) : bool :=
  match hay with
  | EmptyString => starts_with needle hay
  | String _ hay' => starts_with needle hay || includes needle hay'
  end.

(** The string without its first [n] bytes. *)
Fixpoint skip (n : nat) (s : string) : string :=
  match n, s with
  | O, _ => s
  | S _, EmptyString => EmptyString
  | S n', String _ s' => skip n' s'
  end.

(** [hay.replace(needle, by)] for a string [needle] and a replacement
    without [$]: the first occurrence is replaced, the others stay. *)
Fixpoint replace_first (needle by_ hay : string) : string :=
  if starts_with needle hay then by_ +:+ skip (String.length needle) hay
  else match hay with
       | EmptyString => EmptyString
       | String c hay' => String c (replace_first needle by_ hay')
       end.

(** [s.split(sep)] for a separator of one byte. *)
Fixpoint split (sep : Ascii.ascii) (s : string) : list string :=
  match s with
  | EmptyString => [EmptyString]
  | String c s' =>
      if Nat.eqb (code c) (code sep) then EmptyString :: split sep s'
      else match split sep s' with
           | [] => [String c EmptyString]
           | piece :: pieces => String c piece :: pieces
           end
  end.

(** [pieces.join(sep)]. *)
Fixpoint join (sep : string) (pieces : list string) : string :=
  match pieces with
  | [] => EmptyString
  | [piece] => piece
  | piece :: more => piece +:+ sep +:+ join sep more
  end.

(** The byte occurs in the string. *)
Fixpoint has_byte (c : Ascii.ascii) (s : string) : bool :=
  match s with
  | EmptyString => false
  | String d s' => Nat.eqb (code d) (code c) || has_byte c s'
  end.

(** [\d]. *)
Definition is_digit (c : Ascii.ascii) : bool :=
  Nat.leb 48 (code c) && Nat.leb (code c) 57.

Definition digit_value (c : Ascii.ascii) : nat := code c - 48.

Fixpoint has_digit (s : string) : bool :=
  match s with
  | EmptyString => false
  | String c s' => is_digit c || has_digit s'
  end.

(** The number of bytes of the white space character ([\s]: the white
    space and line terminator code points) at the head of the string, 0 when
    it starts with none. *)
Definition space_width (s : string) : nat :=
  match s with
  | EmptyString => 0
  | String c1 s1 =>
      let a := code c1 in
      if Nat.eqb a 9 || Nat.eqb a 10 || Nat.eqb a 11 || Nat.eqb a 12
         || Nat.eqb a 13 || Nat.eqb a 32 then 1
      else if Nat.eqb a 194 then
        (* U+00A0 *)
        match s1 with
        | String c2 _ => if Nat.eqb (code c2) 160 then 2 else 0
        | EmptyString => 0
        end
      else if Nat.eqb a 225 || Nat.eqb a 226 || Nat.eqb a 227 || Nat.eqb a 239 then
        match s1 with
        | String c2 (String c3 _) =>
            let b := code c2 in
            let c := code c3 in
            if Nat.eqb a 225 && Nat.eqb b 154 && Nat.eqb c 128 then 3        (* U+1680 *)
            else if Nat.eqb a 226 && Nat.eqb b 128
                    && (Nat.leb 128 c && Nat.leb c 138) then 3               (* U+2000 to U+200A *)
            else if Nat.eqb a 226 && Nat.eqb b 128
                    && (Nat.eqb c 168 || Nat.eqb c 169 || Nat.eqb c 175) then 3
                                                                             (* U+2028, U+2029, U+202F *)
            else if Nat.eqb a 226 && Nat.eqb b 129 && Nat.eqb c 159 then 3   (* U+205F *)
            else if Nat.eqb a 227 && Nat.eqb b 128 && Nat.eqb c 128 then 3   (* U+3000 *)
            else if Nat.eqb a 239 && Nat.eqb b 187 && Nat.eqb c 191 then 3   (* U+FEFF *)
            else 0
        | _ => 0
        end
      else 0
  end.

(** [\s*] at the head of the string: what follows the white space. *)
Fixpoint skip_spaces_upto (fuel : nat) (s : string) : string :=
  match fuel with
  | O => s
  | S fuel' =>
      match space_width s with
      | O => s
      | S w => skip_spaces_upto fuel' (skip (S w) s)
      end
  end.

Definition skip_spaces (s : string) : string := skip_spaces_upto (String.length s) s.

End Text.

(** ** src/lib/google-calendar.ts *)
Module GoogleCalendar.
Import Js Text.
Local Open Scope exec_scope.

(** *** parseDateTime *)

Inductive Meridiem : Type := AM | PM.

(** What [dateTimeStr.match(/(\d{1,2})(?::(\d{2}))?\s*(am|pm)?/i)] captures:
    [parseInt] of the first group, of the second when it took part, and the
    third in lower case. *)
Record TimeMatch : Type := {
  hour_digits : nat;
  minute_digits : option nat;
  meridiem : option Meridiem
}.

(** [(am|pm)?] with the flag [i], at the head of the string. *)
Definition meridiem_at (s : string) : option Meridiem :=
  match s with
  | String c1 (String c2 _) =>
      let a := code c1 in
      let m := code c2 in
      if (Nat.eqb m 109 || Nat.eqb m 77) then
        if (Nat.eqb a 97 || Nat.eqb a 65) then Some AM
        else if (Nat.eqb a 112 || Nat.eqb a 80) then Some PM
        else None
      else None
  | _ => None
  end.

(** [(?::(\d{2}))?] at the head of the string: the minutes and what follows
    them, when the group takes part. *)
Definition minutes_at (s : string) : option nat * string :=
  match s with
  | String colon (String m1 (String m2 rest)) =>
      if Nat.eqb (code colon) 58 && is_digit m1 && is_digit m2
      then (Some (10 * digit_value m1 + digit_value m2), rest)
      else (None, s)
  | _ => (None, s)
  end.

(** The match that starts at a digit [d1] followed by [rest]: each group is
    greedy, and every group after the first may be skipped, so the first
    group takes two digits whenever it can. *)
Definition match_from (d1 : Ascii.ascii) (rest : string) : TimeMatch :=
  let '(hour, after_hour) :=
    match rest with
    | String d2 rest' =>
        if is_digit d2 then (10 * digit_value d1 + digit_value d2, rest')
        else (digit_value d1, rest)
    | EmptyString => (digit_value d1, rest)
    end in
  let '(minutes, after_minutes) := minutes_at after_hour in
  {| hour_digits := hour;
     minute_digits := minutes;
     meridiem := meridiem_at (skip_spaces after_minutes) |}.

(** The leftmost match of the expression: it starts at the first digit. *)
Fixpoint time_match (s : string) : option TimeMatch :=
  match s with
  | EmptyString => None
  | String c rest => if is_digit c then Some (match_from c rest) else time_match rest
  end.

(** The two adjustments of [hour]. *)
Definition clock_hour (hour : nat) (ampm : option Meridiem) : nat :=
  let hour :=
    match ampm with
    | Some PM => if Nat.eqb hour 12 then hour else hour + 12
    | _ => hour
    end in
  match ampm with
  | Some AM => if Nat.eqb hour 12 then 0 else hour
  | _ => hour
  end.

(** What the code takes from the host: the [Date] objects with the methods
    it calls on them, [toLowerCase], and the time zone [Intl] resolves. *)
Class Dates : Type := {
  Instant : Type;
  plus_one_day : Instant -> Instant;            (* [d.setDate(d.getDate() + 1)] *)
  setHours : Instant -> nat -> nat -> Instant;  (* [d.setHours(h, m, 0, 0)] *)
  toISOString : Instant -> string;
  Date_of_string : string -> Instant;           (* [new Date(s)] *)
  plus_milliseconds : Instant -> Z -> Instant;  (* [new Date(d.getTime() + ms)] *)
  toLowerCase : string -> string;
  timeZone : string
}.

Section WithDates.
Context `{Dates}.

(** [parseDateTime(dateTimeStr, defaultHour)]; [now] is what [new Date()]
    reads. *)
Definition parseDateTime (now : Instant) (dateTimeStr : string) (defaultHour : nat)
    : string :=
  let lower := toLowerCase dateTimeStr in
  let date := if includes "tomorrow" lower then plus_one_day now else now in
  match time_match dateTimeStr with
  | Some timeMatch =>
      let hour := clock_hour (hour_digits timeMatch) (meridiem timeMatch) in
      let minutes := default 0 (minute_digits timeMatch) in
      toISOString (setHours date hour minutes)
  | None => toISOString (setHours date defaultHour 0)
  end.

(** The default of the parameter [defaultHour]. *)
Definition defaultHour : nat := 14.

(** *** The requests *)

Record CalendarTime : Type := {
  dateTime : string;
  zone : string   (* the field [timeZone] *)
}.

(** [GoogleCalendarEvent]; a field the spread leaves out is [None]. *)
Record GoogleCalendarEvent : Type := {
  summary : string;
  details : option string;   (* the field [description] *)
  start : CalendarTime;
  finish : CalendarTime;     (* the field [end] *)
  place : option string;     (* the field [location] *)
  guests : option (list string)   (* the field [attendees], each [{ email }] *)
}.

Inductive Body : Type :=
| Form (fields : list (string * string))   (* [new URLSearchParams({...})] *)
| Json (event : GoogleCalendarEvent).      (* [JSON.stringify(calendarEvent)] *)

Record Request : Type := {
  url : string;
  method : string;
  headers : list (string * string);
  body : Body
}.

(** What [response.json()] resolves to: [null], or a value whose properties
    can be read. *)
Inductive Parsed : Type :=
| PNull
| PValue (fields : gmap string string).

Record Response : Type := {
  ok : bool;
  text : Promise string;
  json : Promise Parsed
}.

(** The world around a call: [fetch], [process.env] (absent when [process]
    is undefined) and what [new Date()] reads in the first and in the second
    call of [parseDateTime]. *)
Record World : Type := {
  fetch : Request -> Promise Response;
  process_env : option (gmap string string);
  now_start : Instant;
  now_end : Instant
}.

Inductive Event : Type :=
| Fetch (request : Request)
| ConsoleError (label : string) (error : Thrown).

(** The optional parameter [env]: an object whose keys may be missing, and
    whose values may be [undefined]. *)
Definition Env : Type := gmap string (option string).

(** [getEnv(key)] in [getAccessToken]. *)
Definition getEnv (w : World) (env : option Env) (key : string) : option string :=
  let fallback := process_env w ≫= (fun variables => variables !! key) in
  match env with
  | Some e =>
      match e !! key with
      | Some value => value      (* [key in env] *)
      | None => fallback
      end
  | None => fallback
  end.

Definition not_configured : string :=
  "Google Calendar credentials not configured. "
    +:+ "Set GOOGLE_CLIENT_ID, GOOGLE_CLIENT_SECRET, and GOOGLE_REFRESH_TOKEN environment variables.".

(** [await fetch(request)]. *)
Definition fetched (w : World) (request : Request) : @Exec Event Response :=
  let* promise := call (Fetch request) (Return (fetch w request)) in
  await promise.

(** [data.key] on what [response.json()] resolved to. *)
Definition property (data : Parsed) (key : string) : @Exec Event (option string) :=
  match data with
  | PNull =>
      throw (ErrorObj "TypeError"
               ("Cannot read properties of null (reading '" +:+ key +:+ "')"))
  | PValue fields => ret (fields !! key)
  end.

Definition token_request (clientId clientSecret refreshToken : string) : Request := {|
  url := "https://oauth2.googleapis.com/token";
  method := "POST";
  headers := [("Content-Type", "application/x-www-form-urlencoded")];
  body := Form [("client_id", clientId);
                ("client_secret", clientSecret);
                ("refresh_token", refreshToken);
                ("grant_type", "refresh_token")]
|}.

(** The body of [getAccessToken].  The block that the key of a service
    account guards is empty. *)
Definition getAccessToken (w : World) (env : option Env) : @Exec Event (option string) :=
  run (if truthy (getEnv w env "GOOGLE_SERVICE_ACCOUNT_KEY") then ret tt else ret tt) then
  let clientId := getEnv w env "GOOGLE_CLIENT_ID" in
  let clientSecret := getEnv w env "GOOGLE_CLIENT_SECRET" in
  let refreshToken := getEnv w env "GOOGLE_REFRESH_TOKEN" in
  if negb (truthy clientId) || negb (truthy clientSecret) || negb (truthy refreshToken)
  then throw (new_Error not_configured)
  else
    let* response :=
      fetched w (token_request (render_opt clientId) (render_opt clientSecret)
                   (render_opt refreshToken)) in
    if negb (ok response) then
      let* error := await (text response) in
      throw (new_Error ("Failed to get access token: " +:+ error))
    else
      let* data := await (json response) in
      property data "access_token".

(** The input of [createCalendarEvent] is the tool's. *)
Definition CalendarEventInput : Type := Tools.CalendarEventInput.

(** The object [calendarEvent]. *)
Definition calendarEvent (input : CalendarEventInput)
    (startDateTime endDateTime : string) : GoogleCalendarEvent := {|
  summary := Tools.title input;
  details := Some (if truthy (Tools.description input)
                   then render_opt (Tools.description input)
                   else EmptyString);
  start := {| dateTime := startDateTime; zone := timeZone |};
  finish := {| dateTime := endDateTime; zone := timeZone |};
  place := if truthy (Tools.location input) then Tools.location input else None;
  guests := Tools.attendees input
|}.

Definition events_request (accessToken : option string) (event : GoogleCalendarEvent)
    : Request := {|
  url := "https://www.googleapis.com/calendar/v3/calendars/primary/events";
  method := "POST";
  headers := [("Authorization", "Bearer " +:+ render_opt accessToken);
              ("Content-Type", "application/json")];
  body := Json event
|}.

(** [endDateTime]. *)
Definition endDateTime (w : World) (input : CalendarEventInput) (startDateTime : string)
    : string :=
  if truthy (Tools.endTime input)
  then parseDateTime (now_end w) (render_opt (Tools.endTime input)) defaultHour
  else toISOString (plus_milliseconds (Date_of_string startDateTime) (60 * 60 * 1000)).

Definition created_text (title : string) (htmlLink : option string) : string :=
  "Calendar event " +:+ dquote +:+ title +:+ dquote
    +:+ " created successfully! View it here: " +:+ render_opt htmlLink.

(** [createCalendarEvent(input, env)]. *)
Definition createCalendarEvent (w : World) (input : CalendarEventInput)
    (env : option Env) : Promise string * list Event :=
  async
    (try_catch
       (let* accessToken := getAccessToken w env in
        let startDateTime := parseDateTime (now_start w) (Tools.startTime input) defaultHour in
        let endDateTime := endDateTime w input startDateTime in
        let event := calendarEvent input startDateTime endDateTime in
        let* response := fetched w (events_request accessToken event) in
        if negb (ok response) then
          let* error := await (text response) in
          throw (new_Error ("Failed to create calendar event: " +:+ error))
        else
          let* created := await (json response) in
          let* htmlLink := property created "htmlLink" in
          ret (created_text (Tools.title input) htmlLink))
       (fun error =>
          run emit (ConsoleError "Error creating calendar event:" error)
          then throw error)).

(** The requests among the events of a run. *)
Definition requests (trace : list Event) : list Request :=
  omap (fun ev => match ev with Fetch r => Some r | ConsoleError _ _ => None end) trace.

(** *** The call from [tools.ts] *)

(** The object [executions.createCalendarEvent] builds from [process.env]:
    the three keys are always there. *)
Definition env_object (e : Tools.GoogleEnv) : Env :=
  {[ "GOOGLE_CLIENT_ID" := Tools.GOOGLE_CLIENT_ID e;
     "GOOGLE_CLIENT_SECRET" := Tools.GOOGLE_CLIENT_SECRET e;
     "GOOGLE_REFRESH_TOKEN" := Tools.GOOGLE_REFRESH_TOKEN e ]}.

(** What [executions.createCalendarEvent] reads from [process.env]. *)
Definition read_env (w : World) : option Tools.GoogleEnv :=
  (fun variables =>
     {| Tools.GOOGLE_CLIENT_ID := variables !! "GOOGLE_CLIENT_ID";
        Tools.GOOGLE_CLIENT_SECRET := variables !! "GOOGLE_CLIENT_SECRET";
        Tools.GOOGLE_REFRESH_TOKEN := variables !! "GOOGLE_REFRESH_TOKEN" |})
    <$> process_env w.

(** The runtime of the tools in which [createGoogleCalendarEvent] is the
    function above. *)
Definition runtime `{Tools.Host} (w : World) (agent : option Tools.Agent)
    : Tools.Runtime := {|
  Tools.currentAgent := agent;
  Tools.process_env := read_env w;
  Tools.createGoogleCalendarEvent := fun input env =>
    (createCalendarEvent w input (env_object <$> env)).1
|}.


(** *** Words for the statements *)

(** The test [getAccessToken] makes before it sends anything. *)
Definition configured (w : World) (env : option Env) : bool :=
  truthy (getEnv w env "GOOGLE_CLIENT_ID")
  && truthy (getEnv w env "GOOGLE_CLIENT_SECRET")
  && truthy (getEnv w env "GOOGLE_REFRESH_TOKEN").

(** The request [getAccessToken] sends once the test has passed. *)
Definition token_request_of (w : World) (env : option Env) : Request :=
  token_request (render_opt (getEnv w env "GOOGLE_CLIENT_ID"))
    (render_opt (getEnv w env "GOOGLE_CLIENT_SECRET"))
    (render_opt (getEnv w env "GOOGLE_REFRESH_TOKEN")).

(** The event [createCalendarEvent] sends for an input. *)
Definition event_of (w : World) (input : CalendarEventInput) : GoogleCalendarEvent :=
  let startDateTime := parseDateTime (now_start w) (Tools.startTime input) defaultHour in
  calendarEvent input startDateTime (endDateTime w input startDateTime).

(** The same world with another [process.env]. *)
Definition with_process_env (w : World) (variables : option (gmap string string))
    : World :=
  {| fetch := fetch w; process_env := variables;
     now_start := now_start w; now_end := now_end w |}.

(** The day [parseDateTime] starts from. *)
Definition day_of (now : Instant) (dateTimeStr : string) : Instant :=
  if includes "tomorrow" (toLowerCase dateTimeStr) then plus_one_day now else now.

End WithDates.
End GoogleCalendar.

(** ** A concrete world for the calendar code *)
Module SampleGoogle.
Import Js Text GoogleCalendar.

Definition two_digits (n : nat) : string :=
  String (Ascii.ascii_of_nat (48 + n / 10))
    (String (Ascii.ascii_of_nat (48 + n mod 10)) EmptyString).

(** Dates as a day number with an hour and a minute. *)
#[export] Instance dates : Dates := {|
  Instant := nat * nat * nat;
  plus_one_day := fun d => (S d.1.1, d.1.2, d.2);
  setHours := fun d h m => (d.1.1, h, m);
  toISOString := fun d =>
    "day " +:+ two_digits d.1.1 +:+ "T" +:+ two_digits d.1.2 +:+ ":" +:+ two_digits d.2;
  Date_of_string := fun _ => (3, 9, 0);
  plus_milliseconds := fun d ms => (d.1.1, d.1.2 + Z.to_nat (ms / 3600000), d.2);
  toLowerCase := fun s => s;
  timeZone := "Europe/Paris"
|}.

Definition variables : gmap string string :=
  {[ "GOOGLE_CLIENT_ID" := "id";
     "GOOGLE_CLIENT_SECRET" := "secret";
     "GOOGLE_REFRESH_TOKEN" := "token" ]}.

Definition refusal : Response := {|
  ok := false;
  text := Fulfilled "invalid_grant";
  json := Rejected (Raw "not read")
|}.

Definition granted : Response := {|
  ok := true;
  text := Fulfilled "{}";
  json := Fulfilled (PValue {[ "access_token" := "ya29" ]})
|}.

Definition created : Response := {|
  ok := true;
  text := Fulfilled "{}";
  json := Fulfilled (PValue {[ "id" := "ev1"; "htmlLink" := "https://calendar/ev1" ]})
|}.

Definition token_url : string := "https://oauth2.googleapis.com/token".

Definition this_morning : @Instant dates := (2, 10, 30).

Definition over_quota : Response := {|
  ok := false;
  text := Fulfilled "quota exceeded";
  json := Rejected (Raw "not read")
|}.

(** Google refuses the refresh token. *)
Definition refusing : World := {|
  fetch := fun _ => Fulfilled refusal;
  process_env := Some variables;
  now_start := this_morning;
  now_end := this_morning
|}.

(** Google grants a token and creates the event. *)
Definition granting : World := {|
  fetch := fun request =>
    if bool_decide (url request = token_url) then Fulfilled granted else Fulfilled created;
  process_env := Some variables;
  now_start := this_morning;
  now_end := this_morning
|}.

(** Google grants a token and refuses the event. *)
Definition limiting : World := {|
  fetch := fun request =>
    if bool_decide (url request = token_url) then Fulfilled granted
    else Fulfilled over_quota;
  process_env := Some variables;
  now_start := this_morning;
  now_end := this_morning
|}.

(** No variable is set. *)
Definition bare : World := {|
  fetch := fun _ => Fulfilled granted;
  process_env := Some ∅;
  now_start := this_morning;
  now_end := this_morning
|}.

End SampleGoogle.

(** ** The rest of the tool card *)
Module CardView.
Import Messages Card Text.

(** What [getStatusInfo] returns. *)
Record StatusInfo : Type := {
  status : string;
  statusColor : string;
  bgColor : string;
  iconBg : string
}.

(** [getStatusInfo()]. *)
Definition getStatusInfo (p : Props) : StatusInfo :=
  match part_state (toolUIPart p) with
  | OutputAvailable =>
      {| status := "✓ Completed";
         statusColor := "text-green-500 dark:text-green-400";
         bgColor := if needsConfirmation p
                    then "bg-[#F48120]/10 border-[#F48120]/30"
                    else "bg-green-500/10 border-green-500/30";
         iconBg := if needsConfirmation p then "bg-[#F48120]/10" else "bg-green-500/10" |}
  | InputAvailable =>
      {| status := if needsConfirmation p then "⏳ Awaiting Approval" else "⚙️ Running...";
         statusColor := if needsConfirmation p
                        then "text-yellow-500 dark:text-yellow-400"
                        else "text-[#F48120]";
         bgColor := if needsConfirmation p
                    then "bg-yellow-500/10 border-yellow-500/30"
                    else "bg-[#F48120]/10 border-[#F48120]/30";
         iconBg := if needsConfirmation p then "bg-yellow-500/10" else "bg-[#F48120]/10" |}
  | InputStreaming =>
      {| status := "⏳ Processing...";
         statusColor := "text-[#F48120]";
         bgColor := "bg-[#F48120]/10 border-[#F48120]/30";
         iconBg := "bg-[#F48120]/10" |}
  end.

(** [toolUIPart.type.replace("tool-", "")]. *)
Definition toolName (p : Props) : string :=
  replace_first "tool-" EmptyString (part_type (toolUIPart p)).

(** The icon pulses: [toolUIPart.state !== "output-available"]. *)
Definition pulses (p : Props) : bool :=
  negb (bool_decide (part_state (toolUIPart p) = OutputAvailable)).

(** The result block is rendered:
    [state === "output-available" && output !== undefined]. *)
Definition shows_result (p : Props) : bool :=
  bool_decide (part_state (toolUIPart p) = OutputAvailable)
  && bool_decide (part_output (toolUIPart p) <> None).

(** The notice that the tool requires approval is rendered:
    [state === "input-available" && needsConfirmation]. *)
Definition shows_notice (p : Props) : bool :=
  bool_decide (part_state (toolUIPart p) = InputAvailable) && needsConfirmation p.

(** The card offers a control that calls [onSubmit]. *)
Definition offers_decision (YES NO : string) (p : Props) (isExpanded : bool) : bool :=
  existsb (fun c => match onClick c with OnSubmit _ => true | SetIsExpanded _ => false end)
    (controls YES NO p isExpanded).

(** *** The result block *)

(** An entry of [content]. *)
Record Item : Type := {
  item_type : string;
  item_text : string
}.

(** The output as the block tells it apart: an object with an array
    [content] ([isToolResultWithContent]), a string, or anything else, kept
    as the text [JSON.stringify(result, null, 2)] gives. *)
Inductive Result : Type :=
| WithContent (content : list Item)
| Plain (s : string)
| Other (stringified : string).

Definition nl : Ascii.ascii := Ascii.ascii_of_nat 10.

Definition page_marker : string := Js.nl +:+ "~ Page URL:".

(** [lines.map(line => `- ${line.replace("\n~ ", "")}`)]. *)
Definition bullet (line : string) : string :=
  "- " +:+ replace_first (Js.nl +:+ "~ ") EmptyString line.

(** [text.split("\n").filter(Boolean)]. *)
Definition lines_of (text : string) : list string :=
  List.filter (fun line => negb (Js.is_empty line)) (split nl text).

(** The text shown for one entry of [content]. *)
Definition render_item (item : Item) : string :=
  if bool_decide (item_type item = "text") && starts_with page_marker (item_text item)
  then join Js.nl (bullet <$> lines_of (item_text item))
  else item_text item.

(** The text of the result block. *)
Definition render_result (result : Result) : string :=
  match result with
  | WithContent content => join Js.nl (render_item <$> content)
  | Plain s => s
  | Other stringified => stringified
  end.


(** A card whose tool has answered. *)
Definition finished_card : Props := {|
  toolUIPart := {| part_type := "tool-createCalendarEvent";
                   part_state := OutputAvailable;
                   part_input := "{}";
                   part_output := Some "created" |};
  toolCallId := "call-1";
  needsConfirmation := true
|}.

(** A page of two lines, as a search tool reports it. *)
Definition page : Item := {|
  item_type := "text";
  item_text := Js.nl +:+ "~ Page URL: https://a" +:+ Js.nl +:+ "~ Title: A"
|}.

End CardView.

(** ** The rest of src/server.ts *)
Module Worker.
Import Js Messages Text.
Local Open Scope exec_scope.

Section Intent.
(** [String.prototype.toLowerCase], taken from the host. *)
Variable toLowerCase : string -> string.

(** [cleanedMessages.filter(m => m.role === 'user').slice(-1)[0]]. *)
Definition lastUserMessage (cleanedMessages : list Message) : option Message :=
  last (List.filter (fun m => match role m with User => true | _ => false end)
          cleanedMessages).

(** [p.type === 'text']. *)
Definition is_text (p : Part) : bool :=
  match p with Text _ => true | Tool _ => false end.

(** [parts.find(p => p.type === 'text')?.text]. *)
Fixpoint first_text (ps : list Part) : option string :=
  match ps with
  | [] => None
  | Text content :: _ => Some content
  | Tool _ :: later => first_text later
  end.

(** [userText]. *)
Definition userText (cleanedMessages : list Message) : string :=
  match lastUserMessage cleanedMessages ≫= (fun m => first_text (parts m)) with
  | Some content => toLowerCase content
  | None => EmptyString
  end.

(** The test on [userText] that gives [wantsCalendar]. *)
Definition mentions_calendar (text : string) : bool :=
  includes "calendar" text
  || includes "block" text
  || includes "meeting" text
  || includes "schedule" text
  || includes "add to" text
  || includes "put on" text.

(** [wantsCalendar]. *)
Definition wantsCalendar (cleanedMessages : list Message) : bool :=
  mentions_calendar (userText cleanedMessages).
End Intent.

(** *** The [fetch] handler *)

(** What the handler answers. *)
Inductive Reply (R : Type) : Type :=
| KeyCheck (success : bool)      (* [Response.json({ success })] *)
| Routed (response : R)          (* what [routeAgentRequest] resolved to *)
| NotFound.                      (* [new Response("Not found", { status: 404 })] *)
Arguments KeyCheck {R} success.
Arguments Routed {R} response.
Arguments NotFound {R}.

Inductive Event : Type :=
| ConsoleError (line : string)
| RouteAgentRequest.

Definition key_missing : string :=
  "OPENAI_API_KEY is not set, don't forget to set it locally in .dev.vars, and use `wrangler secret bulk .dev.vars` to upload it to production".

(** [fetch(request, env, _ctx)]: [pathname] is [new URL(request.url).pathname],
    [key] is [process.env.OPENAI_API_KEY], and [routed] is the promise
    [routeAgentRequest(request, env)] returns ([None] when it resolves to a
    falsy value). *)
Definition handle {R} (pathname : string) (key : option string)
    (routed : Promise (option R)) : Promise (Reply R) * list Event :=
  async
    (if bool_decide (pathname = "/check-open-ai-key") then
       ret (KeyCheck (truthy key))
     else
       run (if truthy key then ret tt else emit (ConsoleError key_missing)) then
       let* promise := call RouteAgentRequest (Return routed) in
       let* response := await promise in
       match response with
       | Some r => ret (Routed r)
       | None => ret NotFound
       end).


(** Two requests of the user, the second in two parts, and an answer. *)
Definition exchange : list Message :=
  [ {| id := "m0"; role := User; parts := [Text "what time is it?"]; metadata := None |} ]
  ++ {| id := "m1"; role := User;
        parts := [Text "block my calendar"; Text "thanks"]; metadata := None |}
  :: [ {| id := "m2"; role := Assistant; parts := [Text "on it"]; metadata := None |} ].

(** A request for the calendar followed by a user message with no part. *)
Definition silent : list Message :=
  [ {| id := "m0"; role := User; parts := [Text "block my calendar"]; metadata := None |} ]
  ++ {| id := "m1"; role := User; parts := []; metadata := None |} :: [].

End Worker.


(** * Properties *)

(** ** The tool set and its executors *)
Module ToolsFacts.
Import Js Tools.
Local Open Scope exec_scope.

Section WithHost.
Context `{Host}.

Lemma append_empty_r (s : string) : s +:+ EmptyString = s.
Proof.
  induction s as [|ch s IH]; [reflexivity|].
  change (String ch (s +:+ EmptyString) = String ch s). by rewrite IH.
Qed.

Lemma append_assoc (a b c : string) : (a +:+ b) +:+ c = a +:+ (b +:+ c).
Proof.
  induction a as [|ch a IH]; [reflexivity|].
  change (String ch ((a +:+ b) +:+ c) = String ch (a +:+ (b +:+ c))). by rewrite IH.
Qed.

Lemma contains_suffix (before needle : string) : contains needle (before +:+ needle).
Proof. exists before, EmptyString. by rewrite append_empty_r. Qed.

Lemma contains_framed (before needle after : string) :
  contains needle (before +:+ needle +:+ after).
Proof. by exists before, after. Qed.

(** *** What each executor returns when its guarded operation fails *)

Lemma scheduleTask_throw rt ag a e text :
  currentAgent rt = Some ag ->
  type (when a) <> NoSchedule ->
  schedule ag (schedule_value (when a)) "executeTask" (taskDescription a) = Throw e ->
  to_String e = Return text ->
  (scheduleTask_execute rt a).1
  = Fulfilled (OutText ("Error scheduling task: " +:+ text)).
Proof.
  intros Hag Hty Hthrow Htext.
  unfold scheduleTask_execute, scheduleTask_body, schedule_value in *.
  rewrite Hag. case_decide; [done|].
  destruct (type (when a)); try done; simpl; rewrite Hthrow; simpl;
    rewrite Htext; reflexivity.
Qed.

Lemma getScheduledTasks_throw rt ag e text :
  currentAgent rt = Some ag ->
  getSchedules ag = Throw e ->
  to_String e = Return text ->
  (getScheduledTasks_execute rt tt).1
  = Fulfilled (OutText ("Error listing scheduled tasks: " +:+ text)).
Proof.
  intros Hag Hthrow Htext. unfold getScheduledTasks_execute.
  rewrite Hag. simpl. rewrite Hthrow. simpl. rewrite Htext. reflexivity.
Qed.

Lemma cancelScheduledTask_throw rt ag taskId e text :
  currentAgent rt = Some ag ->
  cancelSchedule ag taskId = Throw e \/ cancelSchedule ag taskId = Return (Rejected e) ->
  to_String e = Return text ->
  (cancelScheduledTask_execute rt taskId).1
  = Fulfilled (OutText ("Error canceling task " +:+ taskId +:+ ": " +:+ text)).
Proof.
  intros Hag [Hthrow | Hthrow] Htext; unfold cancelScheduledTask_execute;
    rewrite Hag; simpl; rewrite Hthrow; simpl; rewrite Htext; reflexivity.
Qed.

(** The awaited call of the calendar code, once the credentials are there. *)
Lemma createCalendarEvent_awaits rt input :
  credentials_loaded rt = true ->
  exists env,
    process_env rt = Some env
    /\ createCalendarEvent_run rt input
       = async
           (try_catch
              (run emit (Console LLog [LText "Creating calendar event with input:";
                                       LText (JSON_stringify input)]) then
               run emit (Console LLog [LText "Using process.env for credentials"]) then
               let* p := call (GoogleCreate input (Some env))
                              (Return (createGoogleCalendarEvent rt input (Some env))) in
               let* result := await p in
               run emit (Console LLog [LText "✅ Calendar event created successfully:";
                                       LText result])
               then ret (OutText result))
              (fun error =>
                 let* errorMessage := eval (message_or_String error) in
                 run emit (Console LError [LText "❌ Error in createCalendarEvent:";
                                           LText errorMessage]) then
                 run emit (Console LError [LText "Full error:"; LThrown error]) then
                 ret (OutText (failure_prefix +:+ errorMessage +:+ failure_suffix)))).
Proof.
  unfold credentials_loaded, createCalendarEvent_run. intros Hcred.
  destruct (process_env rt) as [env|]; [|done]. exists env. split; [done|].
  simpl in *.
  destruct (truthy (GOOGLE_CLIENT_ID env)); [|done].
  destruct (truthy (GOOGLE_CLIENT_SECRET env)); [|done].
  destruct (truthy (GOOGLE_REFRESH_TOKEN env)); [|done].
  reflexivity.
Qed.

Lemma createCalendarEvent_rejected rt input e text :
  credentials_loaded rt = true ->
  createGoogleCalendarEvent rt input (process_env rt) = Rejected e ->
  message_or_String e = Return text ->
  (createCalendarEvent_run rt input).1
  = Fulfilled (OutText (failure_prefix +:+ text +:+ failure_suffix)).
Proof.
  intros Hcred Hrej Htext.
  destruct (createCalendarEvent_awaits rt input Hcred) as (env & Henv & ->).
  rewrite Henv in Hrej. simpl. rewrite Hrej. simpl. rewrite Htext. reflexivity.
Qed.

(** *** The claims *)

(** C4: the registered tools fall into exactly two classes.  The tools
    with an [execute] function are [getLocalTime], [scheduleTask],
    [getScheduledTasks] and [cancelScheduledTask], and none of them has an
    entry in [executions]; the tools without one are [getWeatherInformation]
    and [createCalendarEvent], each with exactly one entry in [executions];
    the names are distinct, so no tool is in both classes or in neither. *)
Theorem tools_partition :
  autonomous_names
  = ["getLocalTime"; "scheduleTask"; "getScheduledTasks"; "cancelScheduledTask"]
  /\ confirmed_names = ["getWeatherInformation"; "createCalendarEvent"]
  /\ executions.*1 = confirmed_names
  /\ NoDup tools.*1
  /\ Forall (fun e =>
               (has_execute e.2 = true /\ entries e.1 executions = 0)
               \/ (has_execute e.2 = false /\ entries e.1 executions = 1)) tools.
Proof.
  split; [reflexivity|]. split; [reflexivity|]. split; [reflexivity|].
  split.
  - compute_done.
  - repeat (apply Forall_cons; split); [..|apply Forall_nil];
      vm_compute; first [exact I | left; done | right; done].
Qed.

(** C6: the no-schedule variant is a recoverable validation failure.
    For every input whose [when.type] is no-schedule the executor of
    [scheduleTask] fulfils its promise with the text "Not a valid schedule
    input" and does nothing else: its trace is empty, so [agent.schedule] is
    not called, and nothing is thrown ([throwError] is not reached). *)
Theorem scheduleTask_no_schedule rt a :
  type (when a) = NoSchedule ->
  scheduleTask_execute rt a = (Fulfilled (OutText "Not a valid schedule input"), []).
Proof.
  intros Hty. unfold scheduleTask_execute, scheduleTask_body.
  case_decide; [reflexivity | done].
Qed.

(** C8, as amended: the text an executor returns for a failure it has
    caught is a fixed frame around the error's own text, which it holds
    verbatim and whole.  For an error whose conversion to a string gives
    [text]: [scheduleTask] returns "Error scheduling task: " followed by
    [text], [getScheduledTasks] "Error listing scheduled tasks: " followed by
    [text], [cancelScheduledTask] "Error canceling task ", the task id and
    ": " followed by [text]; [executions.createCalendarEvent] returns its
    prefix, the error's message (or [String(error)] when it is no [Error])
    and the list of possible causes.  For [scheduleTask] the failure caught
    is one the call of [agent.schedule] throws; for the awaited calls it is a
    throw or a rejection. *)
Theorem error_text_is_framed rt e text :
  (forall ag a,
      currentAgent rt = Some ag ->
      type (when a) <> NoSchedule ->
      schedule ag (schedule_value (when a)) "executeTask" (taskDescription a) = Throw e ->
      to_String e = Return text ->
      exists out, shown (scheduleTask_execute rt a) = Some out
                  /\ out = "Error scheduling task: " +:+ text
                  /\ contains text out)
  /\ (forall ag taskId,
      currentAgent rt = Some ag ->
      cancelSchedule ag taskId = Throw e \/ cancelSchedule ag taskId = Return (Rejected e) ->
      to_String e = Return text ->
      exists out, shown (cancelScheduledTask_execute rt taskId) = Some out
                  /\ out = "Error canceling task " +:+ taskId +:+ ": " +:+ text
                  /\ contains text out)
  /\ (forall ag,
      currentAgent rt = Some ag ->
      getSchedules ag = Throw e ->
      to_String e = Return text ->
      exists out, shown (getScheduledTasks_execute rt tt) = Some out
                  /\ out = "Error listing scheduled tasks: " +:+ text
                  /\ contains text out)
  /\ (forall input,
      credentials_loaded rt = true ->
      createGoogleCalendarEvent rt input (process_env rt) = Rejected e ->
      message_or_String e = Return text ->
      exists out, shown (createCalendarEvent_run rt input) = Some out
                  /\ out = failure_prefix +:+ text +:+ failure_suffix
                  /\ contains text out).
Proof.
  unfold shown. repeat split.
  - intros ag a Hag Hty Hthrow Htext.
    rewrite (scheduleTask_throw rt ag a e text); [|done..].
    eexists. split; [reflexivity|]. split; [reflexivity|]. apply contains_suffix.
  - intros ag taskId Hag Hthrow Htext.
    rewrite (cancelScheduledTask_throw rt ag taskId e text); [|done..].
    eexists. split; [reflexivity|]. split; [reflexivity|].
    rewrite <- !append_assoc. apply contains_suffix.
  - intros ag Hag Hthrow Htext.
    rewrite (getScheduledTasks_throw rt ag e text); [|done..].
    eexists. split; [reflexivity|]. split; [reflexivity|]. apply contains_suffix.
  - intros input Hcred Hrej Htext.
    rewrite (createCalendarEvent_rejected rt input e text); [|done..].
    eexists. split; [reflexivity|]. split; [reflexivity|]. apply contains_framed.
Qed.

(** C10: the executor of [getLocalTime] is constant: for every location
    it fulfils its promise with "10am", so two runs on different locations
    (in whatever runtimes) return the same value. *)
Theorem getLocalTime_is_constant :
  execute getLocalTime = Some getLocalTime_execute
  /\ (forall rt location,
        (getLocalTime_execute rt location).1 = Fulfilled (OutText "10am"))
  /\ (forall rt1 rt2 location1 location2,
        (getLocalTime_execute rt1 location1).1 = (getLocalTime_execute rt2 location2).1).
Proof. repeat split. Qed.

End WithHost.
End ToolsFacts.

(** ** The executors run on concrete inputs *)
Module ToolsRuns.
Import Js Tools Sample.

(** C5, where the code falls short of it: [agent.schedule] is called
    without [await].  The agent here hands back a promise that rejects with
    "Invalid schedule type"; by then the [try] block has been left, so
    [scheduleTask] makes its one call and reports success instead of the
    formatted error.  [cancelScheduledTask], which awaits its call, turns
    the rejection of its promise into the formatted error. *)
Example scheduleTask_does_not_await :
  schedule rejecting_agent (schedule_value (when in_a_minute)) "executeTask"
    (taskDescription in_a_minute)
  = Return (Rejected (new_Error "Invalid schedule type"))
  /\ scheduleTask_execute rejecting_runtime in_a_minute
     = (Fulfilled (OutText ("Task scheduled for type " +:+ dquote +:+ "delayed"
                              +:+ dquote +:+ ": 60")),
        [AgentSchedule (Some (VNumber 60%Z)) "executeTask" "stretch"])
  /\ cancelSchedule failing_agent "t1" = Return (Rejected (new_Error "no such task"))
  /\ shown (cancelScheduledTask_execute failing_runtime "t1")
     = Some "Error canceling task t1: Error: no such task".
Proof. repeat split. Qed.

(** A no-schedule input with a due date, in a runtime whose agent would
    reject: the validation text, and no event. *)
Lemma scheduleTask_no_schedule_run :
  scheduleTask_execute rejecting_runtime no_schedule
  = (Fulfilled (OutText "Not a valid schedule input"), []).
Proof. apply (ToolsFacts.scheduleTask_no_schedule rejecting_runtime no_schedule). reflexivity. Defined.

(** C8, the claim as stated fails: Google's refusal "Failed to get access
    token: invalid_grant" is the internal error of this run, and the text the
    tool returns to the user holds it verbatim. *)
Lemma error_text_is_surfaced :
  createGoogleCalendarEvent failing_runtime standup (process_env failing_runtime)
  = Rejected (new_Error "Failed to get access token: invalid_grant")
  /\ exists out,
       shown (createCalendarEvent_run failing_runtime standup) = Some out
       /\ contains "Failed to get access token: invalid_grant" out.
Proof.
  split; [reflexivity|].
  eexists. split; [reflexivity|].
  exists failure_prefix, failure_suffix. reflexivity.
Qed.

(** The same run, read through the amended claim: the output is the frame
    around Google's refusal. *)
Lemma error_text_is_framed_run :
  exists out,
    shown (createCalendarEvent_run failing_runtime standup) = Some out
    /\ out = failure_prefix +:+ "Failed to get access token: invalid_grant"
               +:+ failure_suffix
    /\ contains "Failed to get access token: invalid_grant" out.
Proof.
  destruct (ToolsFacts.error_text_is_framed failing_runtime
              (new_Error "Failed to get access token: invalid_grant")
              "Failed to get access token: invalid_grant")
    as (_ & _ & _ & Hcalendar).
  apply (Hcalendar standup); reflexivity.
Defined.

End ToolsRuns.

(** ** Chat.executeTask *)
Module ServerFacts.
Import Messages Server.

(** C9: [executeTask] saves the history it found followed by exactly one
    new message, of role user, whose only part is the text "Running scheduled
    task: " followed by the description; the messages already there keep
    their places and their contents. *)
Theorem executeTask_appends_one (M : list Message) (fresh : string) (now : Z)
    (description : string) :
  executeTask M fresh now description = M ++ [announcement fresh now description]
  /\ length (executeTask M fresh now description) = S (length M)
  /\ (forall i m, M !! i = Some m -> executeTask M fresh now description !! i = Some m)
  /\ executeTask M fresh now description !! length M
     = Some (announcement fresh now description)
  /\ role (announcement fresh now description) = User
  /\ parts (announcement fresh now description)
     = [Text ("Running scheduled task: " +:+ description)].
Proof.
  unfold executeTask. fold (announcement fresh now description).
  repeat split.
  - rewrite length_app. simpl. lia.
  - intros i m Hm. by apply lookup_app_l_Some.
  - by rewrite list_lookup_middle.
Qed.

End ServerFacts.

(** ** The approval controls of the tool card *)
Module CardFacts.
Import Messages Card.

Section WithApproval.
Variables YES NO : string.

Lemma controls_submit (p : Props) (isExpanded : bool) (c : Control) (s : Submission) :
  c ∈ controls YES NO p isExpanded ->
  onClick c = OnSubmit s ->
  needsConfirmation p = true
  /\ part_state (toolUIPart p) = InputAvailable
  /\ submitted_for s = toolCallId p
  /\ (result s = YES \/ result s = NO).
Proof.
  unfold controls. intros Hin Hclick.
  apply elem_of_cons in Hin as [-> | Hin]; [discriminate Hclick|].
  destruct (needsConfirmation p); simpl in Hin; [|by apply elem_of_nil in Hin].
  case_bool_decide as Hstate; simpl in Hin; [|by apply elem_of_nil in Hin].
  apply elem_of_cons in Hin as [-> | Hin].
  { simpl in Hclick. injection Hclick as <-. auto. }
  apply elem_of_cons in Hin as [-> | Hin].
  { simpl in Hclick. injection Hclick as <-. auto. }
  by apply elem_of_nil in Hin.
Qed.

(** C7: while a confirmed invocation is shown in state input-available,
    clicking Approve submits exactly [APPROVAL.YES] and clicking Reject
    exactly [APPROVAL.NO], each with the card's [toolCallId]; no control of
    the card submits anything else, and a control that submits exists only
    while the invocation needs confirmation and is in state
    input-available. *)
Theorem approval_controls (p : Props) (isExpanded : bool) :
  (needsConfirmation p = true ->
   part_state (toolUIPart p) = InputAvailable ->
   click YES NO p isExpanded "Approve"
   = Some (OnSubmit {| submitted_for := toolCallId p; result := YES |})
   /\ click YES NO p isExpanded "Reject"
      = Some (OnSubmit {| submitted_for := toolCallId p; result := NO |}))
  /\ (forall c s,
        c ∈ controls YES NO p isExpanded ->
        onClick c = OnSubmit s ->
        needsConfirmation p = true
        /\ part_state (toolUIPart p) = InputAvailable
        /\ submitted_for s = toolCallId p
        /\ (result s = YES \/ result s = NO)).
Proof.
  split; [|apply controls_submit].
  intros Hneeds Hstate. unfold click, controls.
  rewrite Hneeds, Hstate. rewrite bool_decide_eq_true_2 by done.
  split; reflexivity.
Qed.

End WithApproval.

(** The card of a calendar event that awaits its decision, with the texts
    the client uses for yes and no. *)
Lemma approval_controls_run :
  click "Yes, confirmed." "No, denied." Sample.pending_card true "Approve"
  = Some (OnSubmit {| submitted_for := "call-1"; result := "Yes, confirmed." |})
  /\ click "Yes, confirmed." "No, denied." Sample.pending_card true "Reject"
     = Some (OnSubmit {| submitted_for := "call-1"; result := "No, denied." |}).
Proof.
  apply (approval_controls "Yes, confirmed." "No, denied." Sample.pending_card true);
    reflexivity.
Defined.

End CardFacts.

(** ** The history sanitizer *)
Module SanitizerFacts.
Import Messages Lifecycle.

Lemma parts_with_parts (m : Message) (ps : list Part) : parts (with_parts m ps) = ps.
Proof. reflexivity. Qed.

Lemma with_parts_twice (m : Message) (ps qs : list Part) :
  with_parts (with_parts m ps) qs = with_parts m qs.
Proof. reflexivity. Qed.

Lemma drop_pending_settled (ps : list Part) : settled (drop_pending ps).
Proof.
  unfold settled, drop_pending. apply Forall_forall.
  intros p Hp. by apply list_elem_of_filter in Hp as [? _].
Qed.

Lemma drop_pending_fixed (ps : list Part) : settled ps -> drop_pending ps = ps.
Proof.
  unfold drop_pending. induction 1 as [|p ps Hp _ IH]; [reflexivity|].
  rewrite filter_cons_True by done. by rewrite IH.
Qed.

Section Sanitizer.
Variable meaningful : Part -> bool.

Lemma sanitize_last_fixed (ps : list Part) :
  settled ps -> sanitize_last meaningful ps = ps.
Proof.
  induction 1 as [|p ps Hp _ IH]; [reflexivity|].
  simpl. rewrite Hp. simpl. by rewrite IH.
Qed.

(** Sanitizing the last message never removes its last meaningful part. *)
Lemma sanitize_last_meaningful (ps : list Part) :
  existsb meaningful (sanitize_last meaningful ps) = existsb meaningful ps.
Proof.
  induction ps as [|p later IH]; [reflexivity|].
  simpl. unfold is_candidate.
  destruct (is_pending p), (meaningful p) eqn:Hm, (existsb meaningful later) eqn:Hl;
    simpl; rewrite ?Hm, ?IH, ?Hl; reflexivity.
Qed.

Lemma sanitize_last_twice (ps : list Part) :
  sanitize_last meaningful (sanitize_last meaningful ps) = sanitize_last meaningful ps.
Proof.
  induction ps as [|p later IH]; [reflexivity|].
  simpl. destruct (is_pending p && negb (is_candidate meaningful p later)) eqn:Hdrop;
    [exact IH|].
  simpl. unfold is_candidate in *. rewrite sanitize_last_meaningful, Hdrop.
  by rewrite IH.
Qed.

Lemma cleanupMessages_last (m : Message) :
  cleanupMessages meaningful [m]
  = match sanitize_last meaningful (parts m) with
    | [] => []
    | _ :: _ => [with_parts m (sanitize_last meaningful (parts m))]
    end.
Proof. simpl. by destruct (sanitize_last meaningful (parts m)). Qed.

Lemma cleanupMessages_earlier (m next : Message) (rest : list Message) :
  cleanupMessages meaningful (m :: next :: rest)
  = match drop_pending (parts m) with
    | [] => cleanupMessages meaningful (next :: rest)
    | _ :: _ => with_parts m (drop_pending (parts m))
                :: cleanupMessages meaningful (next :: rest)
    end.
Proof. reflexivity. Qed.

(** C2: the history sanitizer is idempotent: cleaning up a history that
    has been cleaned up changes nothing, whichever parts count as
    meaningful. *)
Theorem cleanupMessages_idempotent (H : list Message) :
  cleanupMessages meaningful (cleanupMessages meaningful H)
  = cleanupMessages meaningful H.
Proof.
  induction H as [|m rest IH]; [reflexivity|].
  destruct rest as [|next rest].
  - (* [m] is the last message *)
    rewrite cleanupMessages_last.
    destruct (sanitize_last meaningful (parts m)) as [|p ps] eqn:Hlast;
      [reflexivity|].
    rewrite cleanupMessages_last, parts_with_parts, <- Hlast, sanitize_last_twice.
    rewrite Hlast. reflexivity.
  - (* [m] is followed by another message *)
    rewrite cleanupMessages_earlier.
    destruct (drop_pending (parts m)) as [|p ps] eqn:Hdrop; [exact IH|].
    assert (Hsettled : settled (p :: ps))
      by (rewrite <- Hdrop; apply drop_pending_settled).
    destruct (cleanupMessages meaningful (next :: rest)) as [|r cleaned] eqn:Hrest.
    + rewrite cleanupMessages_last, parts_with_parts.
      by rewrite (sanitize_last_fixed _ Hsettled).
    + rewrite cleanupMessages_earlier, parts_with_parts.
      rewrite (drop_pending_fixed _ Hsettled), IH. reflexivity.
Qed.

Lemma settled_iff (ps : list Part) : settled ps <-> existsb is_pending ps = false.
Proof.
  unfold settled. induction ps as [|p ps IH]; simpl.
  - split; [done | intros _; apply Forall_nil_2].
  - rewrite Forall_cons, orb_false_iff, IH. reflexivity.
Qed.

(** Once a message with no unresolved call has been added at the end (the
    user's new message), the cleaned history holds no unresolved call. *)
Lemma cleanupMessages_resolved (H : list Message) (u : Message) :
  existsb is_pending (parts u) = false ->
  unresolved (cleanupMessages meaningful (H ++ [u])) = false.
Proof.
  intros Hu. induction H as [|m rest IH].
  - simpl app. rewrite cleanupMessages_last.
    rewrite (sanitize_last_fixed (parts u)) by by apply settled_iff.
    destruct (parts u); [reflexivity|]. unfold unresolved. simpl in *.
    by rewrite Hu.
  - simpl app. destruct (rest ++ [u]) as [|next others] eqn:Hrest.
    { by destruct rest. }
    rewrite cleanupMessages_earlier.
    pose proof (drop_pending_settled (parts m)) as Hm. apply settled_iff in Hm.
    destruct (drop_pending (parts m)) as [|p ps]; [exact IH|].
    exact (proj2 (orb_false_iff
                    (existsb is_pending (p :: ps))
                    (unresolved (cleanupMessages meaningful (next :: others))))
                 (conj Hm IH)).
Qed.

(** *** What a cleaned history looks like *)

Lemma sanitize_last_shorter (ps : list Part) :
  length (sanitize_last meaningful ps) <= length ps.
Proof.
  induction ps as [|p later IH]; [done|]. simpl.
  destruct (is_pending p && negb (is_candidate meaningful p later)); simpl; lia.
Qed.

Lemma cleanupMessages_shorter (H : list Message) :
  length (cleanupMessages meaningful H) <= length H.
Proof.
  induction H as [|m rest IH]; [done|]. simpl.
  destruct rest as [|next rest].
  - destruct (sanitize_last meaningful (parts m)); simpl; lia.
  - destruct (drop_pending (parts m)); simpl in *; lia.
Qed.

Lemma with_parts_fixed (m : Message) (ps : list Part) :
  with_parts m ps = m -> ps = parts m.
Proof. intros <-. reflexivity. Qed.

(** In a history the sanitizer leaves as it is, only the last message can
    hold an unresolved invocation... *)
Lemma cleaned_earlier_settled (H : list Message) (i : nat) (m : Message) :
  cleanupMessages meaningful H = H ->
  H !! i = Some m ->
  S i < length H ->
  settled (parts m).
Proof.
  revert i. induction H as [|m0 rest IH]; intros i Hfix Hi Hlen; [done|].
  destruct rest as [|next rest]; [simpl in Hlen; lia|].
  rewrite cleanupMessages_earlier in Hfix.
  destruct (drop_pending (parts m0)) as [|p ps] eqn:Hdrop.
  - pose proof (cleanupMessages_shorter (next :: rest)) as Hshort.
    rewrite Hfix in Hshort. simpl in Hshort. lia.
  - injection Hfix as Hm0 Hrest. apply with_parts_fixed in Hm0.
    destruct i as [|i].
    + injection Hi as <-. rewrite <- Hm0, <- Hdrop. apply drop_pending_settled.
    + apply (IH i Hrest Hi). simpl in *. lia.
Qed.

(** ... and the sanitizer leaves the parts of that message as they are. *)
Lemma cleaned_last_fixed (H : list Message) (i : nat) (m : Message) :
  cleanupMessages meaningful H = H ->
  H !! i = Some m ->
  S i = length H ->
  sanitize_last meaningful (parts m) = parts m.
Proof.
  revert i. induction H as [|m0 rest IH]; intros i Hfix Hi Hlen; [done|].
  destruct rest as [|next rest].
  - destruct i as [|i]; [|simpl in Hlen; lia]. injection Hi as <-.
    rewrite cleanupMessages_last in Hfix.
    destruct (sanitize_last meaningful (parts m0)) as [|p ps] eqn:Hlast; [done|].
    injection Hfix as Hm0. by apply with_parts_fixed in Hm0.
  - rewrite cleanupMessages_earlier in Hfix.
    destruct (drop_pending (parts m0)) as [|p ps] eqn:Hdrop.
    + pose proof (cleanupMessages_shorter (next :: rest)) as Hshort.
      rewrite Hfix in Hshort. simpl in Hshort. lia.
    + injection Hfix as _ Hrest.
      destruct i as [|i]; [simpl in Hlen; lia|].
      apply (IH i Hrest Hi). simpl in *. lia.
Qed.

(** An unresolved invocation that survives in the last message is meaningful
    and is followed by no meaningful part. *)
Lemma kept_pending_is_candidate (ps : list Part) (j : nat) (p : Part) :
  sanitize_last meaningful ps = ps ->
  ps !! j = Some p ->
  is_pending p = true ->
  meaningful p = true /\ existsb meaningful (drop (S j) ps) = false.
Proof.
  revert j. induction ps as [|q later IH]; intros j Hfix Hj Hp; [done|].
  simpl in Hfix.
  destruct (is_pending q && negb (is_candidate meaningful q later)) eqn:Hdrop.
  { pose proof (sanitize_last_shorter later) as Hshort.
    rewrite Hfix in Hshort. simpl in Hshort. lia. }
  injection Hfix as Hlater. destruct j as [|j].
  - injection Hj as ->. rewrite Hp in Hdrop. simpl in Hdrop.
    apply negb_false_iff, andb_true_iff in Hdrop as [Hm Hnone].
    split; [done|]. by apply negb_true_iff in Hnone.
  - by apply IH.
Qed.

Lemma meaningful_later (ps : list Part) (j k : nat) (p : Part) :
  ps !! k = Some p -> j < k -> meaningful p = true ->
  existsb meaningful (drop (S j) ps) = true.
Proof.
  intros Hk Hjk Hp. apply existsb_exists. exists p. split; [|done].
  apply list_elem_of_In, list_elem_of_lookup. exists (k - S j).
  rewrite lookup_drop. by replace (S j + (k - S j)) with k by lia.
Qed.

(** A cleaned history holds at most one unresolved invocation. *)
Lemma cleaned_single_pending (H : list Message) (i1 j1 i2 j2 : nat)
    (m1 m2 : Message) (p1 p2 : Part) :
  cleanupMessages meaningful H = H ->
  H !! i1 = Some m1 -> parts m1 !! j1 = Some p1 -> is_pending p1 = true ->
  H !! i2 = Some m2 -> parts m2 !! j2 = Some p2 -> is_pending p2 = true ->
  i1 = i2 /\ j1 = j2.
Proof.
  intros Hfix Hm1 Hp1 Hpend1 Hm2 Hp2 Hpend2.
  assert (Hlast : forall i j m p,
             H !! i = Some m -> parts m !! j = Some p -> is_pending p = true ->
             S i = length H).
  { intros i j m p Hm Hp Hpend. pose proof (lookup_lt_Some _ _ _ Hm) as Hlt.
    destruct (decide (S i = length H)) as [|Hne]; [done|].
    assert (Hs : settled (parts m)) by (apply (cleaned_earlier_settled H i); [done..|lia]).
    unfold settled in Hs. rewrite Forall_lookup in Hs.
    specialize (Hs j p Hp). congruence. }
  pose proof (Hlast i1 j1 m1 p1 Hm1 Hp1 Hpend1) as Hi1.
  pose proof (Hlast i2 j2 m2 p2 Hm2 Hp2 Hpend2) as Hi2.
  assert (i1 = i2) as -> by lia. split; [done|].
  assert (m1 = m2) as -> by congruence.
  pose proof (cleaned_last_fixed H i2 m2 Hfix Hm2 Hi2) as Hparts.
  destruct (kept_pending_is_candidate _ j1 p1 Hparts Hp1 Hpend1) as [Hmean1 Hnone1].
  destruct (kept_pending_is_candidate _ j2 p2 Hparts Hp2 Hpend2) as [Hmean2 Hnone2].
  destruct (Nat.lt_trichotomy j1 j2) as [Hlt|[Heq|Hgt]]; [|done|].
  - rewrite (meaningful_later _ j1 j2 p2 Hp2 Hlt Hmean2) in Hnone1. done.
  - rewrite (meaningful_later _ j2 j1 p1 Hp1 Hgt Hmean1) in Hnone2. done.
Qed.

End Sanitizer.

(** The example of the spec: an unresolved invocation in a message that is
    not the last one goes, and so does the message it leaves empty. *)
Example cleanupMessages_drops_dangling :
  cleanupMessages Sample.meaningful
    [ {| id := "m1"; role := Assistant; parts := [Tool Sample.calendar_call];
         metadata := None |};
      {| id := "m2"; role := User; parts := [Text "hello"]; metadata := None |} ]
  = [ {| id := "m2"; role := User; parts := [Text "hello"]; metadata := None |} ].
Proof. reflexivity. Qed.

(** The approval candidate, last meaningful part of the last message, stays. *)
Example cleanupMessages_keeps_candidate :
  cleanupMessages Sample.meaningful Sample.asking = Sample.asking.
Proof. reflexivity. Qed.

End SanitizerFacts.

(** ** The approval-gated executor *)
Module ExecutorFacts.
Import Messages Lifecycle.

Lemma with_parts_same (m : Message) : with_parts m (parts m) = m.
Proof. by destruct m. Qed.

Section Executor.
Variable registry : gmap string ToolDefinition.
Variable executions : gmap string Executor.
Variable decisions : gmap string Decision.
Variable cancellation_marker : string.
Variable format_error : Js.Thrown -> string.

Local Abbreviation resolve_part :=
  (resolve_part registry executions decisions cancellation_marker format_error).
Local Abbreviation resolve_parts :=
  (resolve_parts registry executions decisions cancellation_marker format_error).
Local Abbreviation resolve_messages :=
  (resolve_messages registry executions decisions cancellation_marker format_error).
Local Abbreviation processToolCalls :=
  (processToolCalls registry executions decisions cancellation_marker format_error).
Local Abbreviation ran_no_confirmed := (ran_no_confirmed registry).
Local Abbreviation pending_confirmed := (pending_confirmed registry).

Lemma resolve_parts_cons (only : bool) (p : Part) (later : list Part) (st : Pass) :
  resolve_parts only (p :: later) st
  = ((resolve_part only p st).1
       :: (resolve_parts only later (resolve_part only p st).2).1,
     (resolve_parts only later (resolve_part only p st).2).2).
Proof.
  simpl. destruct (resolve_part only p st) as [p' st1]. simpl.
  by destruct (resolve_parts only later st1).
Qed.

Lemma resolve_messages_cons (only : bool) (m : Message) (rest : list Message)
    (st : Pass) :
  resolve_messages only (m :: rest) st
  = (with_parts m (resolve_parts only (parts m) st).1
       :: (resolve_messages only rest (resolve_parts only (parts m) st).2).1,
     (resolve_messages only rest (resolve_parts only (parts m) st).2).2).
Proof.
  simpl. destruct (resolve_parts only (parts m) st) as [ps st1]. simpl.
  by destruct (resolve_messages only rest st1).
Qed.

(** *** Parts the pass has nothing to do with *)

Lemma resolve_part_idle (only : bool) (p : Part) (st : Pass) :
  awaiting p = false -> resolve_part only p st = (p, st).
Proof.
  destruct p as [text|inv]; [done|]. simpl. intros ->. by rewrite orb_true_r.
Qed.

Lemma resolve_parts_idle (only : bool) (ps : list Part) (st : Pass) :
  Forall (fun p => awaiting p = false) ps -> resolve_parts only ps st = (ps, st).
Proof.
  induction 1 as [|p later Hp _ IH]; [done|].
  rewrite resolve_parts_cons, (resolve_part_idle only p st Hp). simpl.
  by rewrite IH.
Qed.

Lemma resolve_messages_idle (only : bool) (H : list Message) (st : Pass) :
  Forall (fun m => Forall (fun p => awaiting p = false) (parts m)) H ->
  resolve_messages only H st = (H, st).
Proof.
  induction 1 as [|m rest Hm _ IH]; [done|].
  rewrite resolve_messages_cons, (resolve_parts_idle only _ st Hm). simpl.
  by rewrite IH, with_parts_same.
Qed.

(** *** Parts that are not pending confirmed invocations *)

Lemma halt_invoked (only : bool) (st : Pass) :
  invoked (if only then halt st else st) = invoked st.
Proof. by destruct only. Qed.

Lemma resolve_part_other (only : bool) (p : Part) (st : Pass) :
  ran_no_confirmed st ->
  pending_confirmed p = false ->
  ran_no_confirmed (resolve_part only p st).2.
Proof.
  unfold Lifecycle.ran_no_confirmed. intros Hlog Hother.
  destruct p as [text|inv]; [done|]. simpl in *.
  destruct (stopped st); [done|]. simpl.
  destruct (awaits_resolution inv); simpl in *; [|done].
  destruct (registry !! toolName inv) as [[ex|]|] eqn:Hreg;
    [|discriminate Hother|]; simpl; rewrite halt_invoked; [|done].
  simpl. apply Forall_app. split; [done|].
  apply Forall_singleton. simpl. by rewrite Hreg.
Qed.

Lemma resolve_parts_other (only : bool) (ps : list Part) (st : Pass) :
  ran_no_confirmed st ->
  Forall (fun p => pending_confirmed p = false) ps ->
  ran_no_confirmed (resolve_parts only ps st).2.
Proof.
  intros Hst Hall. revert st Hst.
  induction Hall as [|p later Hp _ IH]; intros st Hst; [done|].
  rewrite resolve_parts_cons. simpl. apply IH. by apply resolve_part_other.
Qed.

Lemma resolve_messages_other (only : bool) (H : list Message) (st : Pass) :
  ran_no_confirmed st ->
  Forall (fun m => Forall (fun p => pending_confirmed p = false) (parts m)) H ->
  ran_no_confirmed (resolve_messages only H st).2.
Proof.
  intros Hst Hall. revert st Hst.
  induction Hall as [|m rest Hm _ IH]; intros st Hst; [done|].
  rewrite resolve_messages_cons. simpl. apply IH. by apply resolve_parts_other.
Qed.

(** *** The rejected invocation *)

(** A pending confirmed invocation with a REJECTED decision is closed with
    the cancellation marker, and no executor runs. *)
Lemma resolve_part_rejected (only : bool) (inv : ToolInvocation) (st : Pass) :
  stopped st = false ->
  ran_no_confirmed st ->
  awaits_resolution inv = true ->
  registry !! toolName inv = Some ConfirmedTool ->
  decisions !! toolCallId inv = Some REJECTED ->
  (resolve_part only (Tool inv) st).1 = Tool (finish inv cancellation_marker)
  /\ ran_no_confirmed (resolve_part only (Tool inv) st).2.
Proof.
  unfold Lifecycle.ran_no_confirmed. intros Hrun Hlog Hawaits Hreg Hdec. simpl.
  rewrite Hrun, Hawaits, Hreg, Hdec. simpl. by rewrite halt_invoked.
Qed.

(** Within one message: the rejected invocation sits at index [j], no part
    before it awaits resolution, and no other part is a pending confirmed
    invocation. *)
Lemma resolve_parts_rejected (only : bool) (ps : list Part) (j : nat)
    (inv : ToolInvocation) (st : Pass) :
  stopped st = false ->
  ran_no_confirmed st ->
  ps !! j = Some (Tool inv) ->
  awaits_resolution inv = true ->
  registry !! toolName inv = Some ConfirmedTool ->
  decisions !! toolCallId inv = Some REJECTED ->
  (forall j' p, ps !! j' = Some p -> awaiting p = true -> j <= j') ->
  (forall j' p, ps !! j' = Some p -> pending_confirmed p = true -> j' = j) ->
  (resolve_parts only ps st).1 !! j = Some (Tool (finish inv cancellation_marker))
  /\ ran_no_confirmed (resolve_parts only ps st).2.
Proof.
  intros Hrun Hst Hj Hawaits Hreg Hdec. revert j Hj.
  induction ps as [|p later IH]; intros j Hj Hearliest Honly; [done|].
  rewrite resolve_parts_cons. simpl. destruct j as [|j].
  - injection Hj as ->.
    destruct (resolve_part_rejected only inv st Hrun Hst Hawaits Hreg Hdec) as [-> Hst1].
    split; [done|]. apply resolve_parts_other; [done|].
    apply Forall_lookup. intros j' p Hp.
    destruct (pending_confirmed p) eqn:Hpc; [|done].
    by specialize (Honly (S j') p Hp Hpc).
  - assert (Hidle : awaiting p = false).
    { destruct (awaiting p) eqn:Hp; [|done].
      specialize (Hearliest 0 p eq_refl Hp). lia. }
    rewrite (resolve_part_idle only p st Hidle). simpl. apply IH.
    + exact Hj.
    + intros j' q Hq Hwait. specialize (Hearliest (S j') q Hq Hwait). lia.
    + intros j' q Hq Hpc. specialize (Honly (S j') q Hq Hpc). lia.
Qed.

Lemma resolve_messages_rejected (only : bool) (H : list Message) (i j : nat)
    (m : Message) (inv : ToolInvocation) (st : Pass) :
  stopped st = false ->
  ran_no_confirmed st ->
  H !! i = Some m ->
  parts m !! j = Some (Tool inv) ->
  awaits_resolution inv = true ->
  registry !! toolName inv = Some ConfirmedTool ->
  decisions !! toolCallId inv = Some REJECTED ->
  (forall i' j' m' p,
      H !! i' = Some m' -> parts m' !! j' = Some p ->
      awaiting p = true -> i < i' \/ (i' = i /\ j <= j')) ->
  (forall i' j' m' p,
      H !! i' = Some m' -> parts m' !! j' = Some p ->
      pending_confirmed p = true -> i' = i /\ j' = j) ->
  (exists m', (resolve_messages only H st).1 !! i = Some m'
              /\ parts m' !! j = Some (Tool (finish inv cancellation_marker)))
  /\ ran_no_confirmed (resolve_messages only H st).2.
Proof.
  intros Hrun Hst Hi Hj Hawaits Hreg Hdec. revert i Hi.
  induction H as [|m0 rest IH]; intros i Hi Hearliest Honly; [done|].
  rewrite resolve_messages_cons. simpl. destruct i as [|i].
  - injection Hi as ->.
    destruct (resolve_parts_rejected only (parts m) j inv st
                Hrun Hst Hj Hawaits Hreg Hdec) as [Hhit Hst1].
    { intros j' p Hp Hwait.
      destruct (Hearliest 0 j' m p eq_refl Hp Hwait) as [?|[_ ?]]; lia. }
    { intros j' p Hp Hpc. by destruct (Honly 0 j' m p eq_refl Hp Hpc). }
    split; [by eexists|].
    apply resolve_messages_other; [done|].
    apply Forall_lookup. intros i' m' Hm'. apply Forall_lookup. intros j' p Hp.
    destruct (pending_confirmed p) eqn:Hpc; [|done].
    by destruct (Honly (S i') j' m' p Hm' Hp Hpc).
  - assert (Hidle : Forall (fun p => awaiting p = false) (parts m0)).
    { apply Forall_lookup. intros j' p Hp.
      destruct (awaiting p) eqn:Hwait; [|done].
      destruct (Hearliest 0 j' m0 p eq_refl Hp Hwait) as [?|[? _]]; lia. }
    rewrite (resolve_parts_idle only _ st Hidle). simpl. apply IH.
    + exact Hi.
    + intros i' j' m' p Hm' Hp Hwait.
      destruct (Hearliest (S i') j' m' p Hm' Hp Hwait) as [?|[? ?]]; [left|right]; lia.
    + intros i' j' m' p Hm' Hp Hpc.
      destruct (Honly (S i') j' m' p Hm' Hp Hpc). split; lia.
Qed.

(** A pass that ran no executor under a confirmed tool's name invoked the
    executor bound to such a tool zero times. *)
Lemma confirmed_not_invoked (name : string) (st : Pass) :
  ran_no_confirmed st ->
  registry !! name = Some ConfirmedTool ->
  invocations name st = 0.
Proof.
  unfold invocations, Lifecycle.ran_no_confirmed. intros Hlog Hreg.
  destruct (filter _ _) as [|e others] eqn:Hfilter; [reflexivity|].
  assert (He : e ∈ e :: others) by left.
  rewrite <- Hfilter in He. apply list_elem_of_filter in He as [Hname He].
  rewrite Forall_forall in Hlog. exfalso. apply (Hlog e He). by rewrite Hname.
Qed.

Lemma awaits_when_available (C : ToolInvocation) :
  state C = InputAvailable -> output C = None -> awaits_resolution C = true.
Proof. intros Hstate Houtput. unfold awaits_resolution. by rewrite !bool_decide_eq_true_2. Qed.

(** C1: in a history whose only pending confirmed invocation is [C] (state
    input-available, no output), with a REJECTED decision recorded for it
    and no earlier call left to resolve, one pass of the executor leaves [C]
    in state output-available with the cancellation marker as its output,
    and the pass invokes the executor bound to [C]'s tool zero times. *)
Theorem rejected_call_is_cancelled (H : list Message) (i j : nat) (m : Message)
    (C : ToolInvocation) :
  H !! i = Some m ->
  parts m !! j = Some (Tool C) ->
  state C = InputAvailable ->
  output C = None ->
  registry !! toolName C = Some ConfirmedTool ->
  decisions !! toolCallId C = Some REJECTED ->
  (forall i' j' m' p,
      H !! i' = Some m' -> parts m' !! j' = Some p ->
      pending_confirmed p = true -> i' = i /\ j' = j) ->
  (forall i' j' m' p,
      H !! i' = Some m' -> parts m' !! j' = Some p ->
      awaiting p = true -> i < i' \/ (i' = i /\ j <= j')) ->
  (exists m',
      (processToolCalls H).1 !! i = Some m'
      /\ parts m' !! j
         = Some (Tool {| toolCallId := toolCallId C; toolName := toolName C;
                         state := OutputAvailable; input := input C;
                         output := Some cancellation_marker |}))
  /\ invocations (toolName C) (processToolCalls H).2 = 0.
Proof.
  intros Hi Hj Hstate Houtput Hreg Hdec Honly Hearliest.
  pose proof (awaits_when_available C Hstate Houtput) as Hawaits.
  destruct (resolve_messages_rejected (invariant_violated H) H i j m C start
              eq_refl (Forall_nil_2 _) Hi Hj Hawaits Hreg Hdec Hearliest Honly)
    as [Hhit Hlog].
  split; [exact Hhit | by apply confirmed_not_invoked].
Qed.

Lemma awaiting_is_pending (p : Part) : awaiting p = true -> is_pending p = true.
Proof.
  destruct p as [text|inv]; [done|]. simpl. unfold awaits_resolution.
  intros [Hstate _]%andb_true_iff. rewrite Hstate. apply orb_true_r.
Qed.

Lemma pending_confirmed_awaiting (p : Part) :
  pending_confirmed p = true -> awaiting p = true.
Proof. destruct p as [text|inv]; [done|]. simpl. by intros [? _]%andb_true_iff. Qed.

(** On the executor's input as the spec gives it, a sanitized history, the
    two conditions on the other parts hold by themselves: a pending
    confirmed call with a REJECTED decision is cancelled, whatever else the
    history holds. *)
Lemma rejected_call_in_cleaned_history (meaningful : Part -> bool)
    (H : list Message) (i j : nat) (m : Message) (C : ToolInvocation) :
  cleanupMessages meaningful H = H ->
  H !! i = Some m ->
  parts m !! j = Some (Tool C) ->
  state C = InputAvailable ->
  output C = None ->
  registry !! toolName C = Some ConfirmedTool ->
  decisions !! toolCallId C = Some REJECTED ->
  (exists m',
      (processToolCalls H).1 !! i = Some m'
      /\ parts m' !! j = Some (Tool (finish C cancellation_marker)))
  /\ invocations (toolName C) (processToolCalls H).2 = 0.
Proof.
  intros Hclean Hi Hj Hstate Houtput Hreg Hdec.
  pose proof (awaits_when_available C Hstate Houtput) as Hawaits.
  assert (HC : is_pending (Tool C) = true) by by apply awaiting_is_pending.
  destruct (resolve_messages_rejected (invariant_violated H) H i j m C start
              eq_refl (Forall_nil_2 _) Hi Hj Hawaits Hreg Hdec) as [Hhit Hlog].
  - intros i' j' m' p Hm' Hp Hwait. apply awaiting_is_pending in Hwait.
    destruct (SanitizerFacts.cleaned_single_pending meaningful H i' j' i j m' m p (Tool C))
      as [-> ->]; try done.
    right. lia.
  - intros i' j' m' p Hm' Hp Hpc.
    apply pending_confirmed_awaiting, awaiting_is_pending in Hpc.
    apply (SanitizerFacts.cleaned_single_pending meaningful H i' j' i j m' m p (Tool C));
      done.
  - split; [exact Hhit | by apply confirmed_not_invoked].
Qed.

End Executor.

(** The assistant's calendar call is rejected: the pass closes it with the
    marker and runs nothing. *)
Lemma rejected_call_is_cancelled_run :
  (exists m',
      (Lifecycle.processToolCalls Sample.registry Sample.executions Sample.rejections
         "cancelled" Sample.format_error Sample.asking).1 !! 1 = Some m'
      /\ parts m' !! 1
         = Some (Tool {| toolCallId := "call-1"; toolName := "createCalendarEvent";
                         state := OutputAvailable; input := "{}";
                         output := Some "cancelled" |}))
  /\ invocations "createCalendarEvent"
       (Lifecycle.processToolCalls Sample.registry Sample.executions Sample.rejections
          "cancelled" Sample.format_error Sample.asking).2 = 0.
Proof.
  apply (rejected_call_is_cancelled Sample.registry Sample.executions Sample.rejections
           "cancelled" Sample.format_error Sample.asking 1 1
           {| id := "m2"; role := Assistant;
              parts := [Text "I will add the event"; Tool Sample.calendar_call];
              metadata := None |}
           Sample.calendar_call); try reflexivity.
  - intros [|[|[|i']]] [|[|[|j']]] m' p Hm Hp; vm_compute in Hm, Hp;
      try discriminate; simplify_eq; try done.
  - intros [|[|[|i']]] [|[|[|j']]] m' p Hm Hp; vm_compute in Hm, Hp;
      try discriminate; simplify_eq; try done; intros _; right; lia.
Defined.

(** With the decision APPROVED and an executor that answers "OK", the same
    call ends with that output after one invocation. *)
Example approved_call_runs_once :
  let result :=
    Lifecycle.processToolCalls Sample.registry Sample.executions
      {[ "call-1" := APPROVED ]} "cancelled" Sample.format_error Sample.asking in
  (result.1 !! 1) ≫= (fun m => parts m !! 1)
  = Some (Tool {| toolCallId := "call-1"; toolName := "createCalendarEvent";
                  state := OutputAvailable; input := "{}"; output := Some "OK" |})
  /\ invocations "createCalendarEvent" result.2 = 1.
Proof. vm_compute. split; reflexivity. Qed.

(** With no decision recorded the call stays as it is and the pass stops. *)
Example undecided_call_pauses :
  let result :=
    Lifecycle.processToolCalls Sample.registry Sample.executions ∅
      "cancelled" Sample.format_error Sample.asking in
  result.1 = Sample.asking /\ stopped result.2 = true.
Proof. vm_compute. split; reflexivity. Qed.

(** Two calls left unresolved break the single-outstanding invariant: the
    pass resolves the earliest and leaves the other, decision or not. *)
Example earliest_call_only :
  let clock := {| toolCallId := "call-0"; toolName := "getLocalTime";
                  state := InputAvailable; input := "{}"; output := None |} in
  let both := [ {| id := "m"; role := Assistant;
                   parts := [Tool clock; Tool Sample.calendar_call];
                   metadata := None |} ] in
  (Lifecycle.processToolCalls Sample.registry Sample.executions Sample.rejections
     "cancelled" Sample.format_error both).1
  = [ {| id := "m"; role := Assistant;
         parts := [Tool (finish clock "10am"); Tool Sample.calendar_call];
         metadata := None |} ].
Proof. vm_compute. reflexivity. Qed.

End ExecutorFacts.

(** ** The step loop *)
Module LoopFacts.
Import Messages Lifecycle.

Lemma unresolved_app (H K : list Message) :
  unresolved (H ++ K) = unresolved H || unresolved K.
Proof. unfold unresolved. apply existsb_app. Qed.

Lemma resolved_not_awaiting (p : Part) : is_pending p = false -> awaiting p = false.
Proof.
  destruct p as [text|inv]; [done|]. simpl. intros [_ Hstate]%orb_false_iff.
  unfold awaits_resolution. by rewrite Hstate.
Qed.

Lemma resolved_parts_idle (ps : list Part) :
  existsb is_pending ps = false -> Forall (fun p => awaiting p = false) ps.
Proof.
  induction ps as [|p later IH]; simpl; [constructor|].
  intros [Hp Hlater]%orb_false_iff. constructor; [|by apply IH].
  by apply resolved_not_awaiting.
Qed.

Lemma resolved_history_idle (H : list Message) :
  unresolved H = false ->
  Forall (fun m => Forall (fun p => awaiting p = false) (parts m)) H.
Proof.
  unfold unresolved. induction H as [|m rest IH]; simpl; [constructor|].
  intros [Hm Hrest]%orb_false_iff. constructor; [|by apply IH].
  by apply resolved_parts_idle.
Qed.

(** *** Counting the invocations that are not in their terminal state *)

Lemma outstanding_app (H K : list Message) :
  outstanding (H ++ K) = outstanding H + outstanding K.
Proof. unfold outstanding. by rewrite bind_app, filter_app, length_app. Qed.

Lemma outstanding_resolved (H : list Message) :
  unresolved H = false -> outstanding H = 0.
Proof.
  unfold unresolved, outstanding. induction H as [|m rest IH]; [done|].
  simpl existsb. intros [Hm Hrest]%orb_false_iff.
  rewrite bind_cons, filter_app, length_app, (IH Hrest), Nat.add_0_r.
  clear IH Hrest. induction (parts m) as [|p ps IHps]; [done|].
  simpl in Hm. apply orb_false_iff in Hm as [Hp Hps].
  rewrite filter_cons_False by (by rewrite Hp). by apply IHps.
Qed.

Lemma pending_among_tools (ps : list Part) :
  length (filter (fun p => is_pending p = true) ps)
  <= length (filter (fun p => is_tool p = true) ps).
Proof.
  induction ps as [|p ps IH]; [done|].
  rewrite !filter_cons.
  destruct (decide (is_pending p = true)) as [Hp|Hp];
    destruct (decide (is_tool p = true)) as [Ht|Ht]; simpl; try lia.
  by destruct p.
Qed.

Section Loop.
Variable registry : gmap string ToolDefinition.
Variable executions : gmap string Executor.
Variable decisions : gmap string Decision.
Variable cancellation_marker : string.
Variable format_error : Js.Thrown -> string.

Local Abbreviation resolve_part :=
  (resolve_part registry executions decisions cancellation_marker format_error).
Local Abbreviation resolve_parts :=
  (resolve_parts registry executions decisions cancellation_marker format_error).
Local Abbreviation resolve_messages :=
  (resolve_messages registry executions decisions cancellation_marker format_error).
Local Abbreviation processToolCalls :=
  (processToolCalls registry executions decisions cancellation_marker format_error).
Local Abbreviation step_loop :=
  (step_loop registry executions decisions cancellation_marker format_error).
Local Abbreviation settle := (settle registry format_error).
Local Abbreviation answer := (answer registry format_error).

(** A pass over a history with no unresolved call changes nothing. *)
Lemma processToolCalls_resolved (H : list Message) :
  unresolved H = false -> processToolCalls H = (H, start).
Proof.
  intros HH. unfold Lifecycle.processToolCalls.
  by apply ExecutorFacts.resolve_messages_idle, resolved_history_idle.
Qed.

(** A part the loop resolves inline is settled by the pass, which announces
    it and goes on. *)
Lemma resolve_part_settles (p : Part) (st : Pass) :
  stopped st = false ->
  resolves_inline registry p = true ->
  (resolve_part false p st).1 = settle p
  /\ stopped (resolve_part false p st).2 = false
  /\ deltas (resolve_part false p st).2 = deltas st ++ omap delta_of [settle p].
Proof.
  intros Hrun Hp. destruct p as [text|inv].
  - simpl. by rewrite app_nil_r.
  - simpl in *. apply andb_true_iff in Hp as [Hawaits Hreg].
    rewrite Hrun, Hawaits. simpl.
    destruct (registry !! toolName inv) as [[ex|]|]; done.
Qed.

Lemma resolve_parts_settle (ps : list Part) (st : Pass) :
  stopped st = false ->
  forallb (resolves_inline registry) ps = true ->
  (resolve_parts false ps st).1 = settle <$> ps
  /\ stopped (resolve_parts false ps st).2 = false
  /\ deltas (resolve_parts false ps st).2 = deltas st ++ omap delta_of (settle <$> ps).
Proof.
  revert st. induction ps as [|p later IH]; intros st Hrun Hall.
  - simpl. by rewrite app_nil_r.
  - simpl in Hall. apply andb_true_iff in Hall as [Hp Hlater].
    destruct (resolve_part_settles p st Hrun Hp) as (Hp1 & Hrun1 & Hd1).
    destruct (IH _ Hrun1 Hlater) as (Hl1 & Hrun2 & Hd2).
    rewrite ExecutorFacts.resolve_parts_cons. cbn [fst snd].
    rewrite Hp1, Hl1, Hd2, Hd1, <- app_assoc. repeat split; [done|].
    f_equal. rewrite fmap_cons. simpl. by destruct (delta_of (settle p)).
Qed.

(** A settled part is not pending, and it is a call when the part was. *)
Lemma settle_inline_resolved (p : Part) :
  resolves_inline registry p = true -> is_pending (settle p) = false.
Proof.
  destruct p as [text|inv]; [done|]. simpl.
  intros [_ Hreg]%andb_true_iff.
  destruct (registry !! toolName inv) as [[ex|]|]; done.
Qed.

Lemma settle_is_tool (p : Part) : is_tool (settle p) = is_tool p.
Proof.
  destruct p as [text|inv]; [done|]. simpl.
  by destruct (registry !! toolName inv) as [[ex|]|].
Qed.

(** One delta for each call. *)
Lemma deltas_count (ps : list Part) :
  length (omap delta_of ps) = length (filter (fun p => is_tool p = true) ps).
Proof.
  induction ps as [|p ps IH]; [done|].
  destruct p as [text|inv].
  - rewrite filter_cons_False by done. exact IH.
  - rewrite filter_cons_True by done. simpl. f_equal. exact IH.
Qed.

Lemma settled_calls (ps : list Part) :
  length (filter (fun p => is_tool p = true) (settle <$> ps))
  = length (filter (fun p => is_tool p = true) ps).
Proof.
  induction ps as [|p ps IH]; [done|].
  rewrite fmap_cons, !filter_cons, settle_is_tool.
  destruct (decide (is_tool p = true)); simpl; by rewrite IH.
Qed.

(** The message of a step carries one call, hence one delta. *)
Lemma answer_one_delta (m : Message) :
  proposes_autonomous registry m = true -> length (announced [answer m]) = 1.
Proof.
  intros [Hone _]%andb_true_iff. apply bool_decide_eq_true in Hone.
  unfold announced, answer. rewrite bind_singleton. simpl.
  by rewrite deltas_count, settled_calls.
Qed.

Lemma announced_app (H K : list Message) :
  announced (H ++ K) = announced H ++ announced K.
Proof. unfold announced. by rewrite bind_app, omap_app. Qed.

(** A history with no unresolved call, extended by a message that proposes
    one autonomous call, respects the single-outstanding invariant. *)
Lemma proposal_keeps_invariant (H : list Message) (m : Message) :
  unresolved H = false ->
  proposes_autonomous registry m = true ->
  invariant_violated (H ++ [m]) = false.
Proof.
  intros HH Hm. apply andb_true_iff in Hm as [Hone _].
  apply bool_decide_eq_true in Hone.
  unfold invariant_violated. apply bool_decide_eq_false_2.
  rewrite outstanding_app, (outstanding_resolved H HH).
  unfold outstanding. rewrite bind_singleton.
  pose proof (pending_among_tools (parts m)). lia.
Qed.

(** One step on a resolved history, when the model proposes an autonomous
    call: the history grows by the model's message with its call settled,
    the pass announces that call and nothing else, and the history stays
    resolved. *)
Lemma pass_after_proposal (H : list Message) (m : Message) :
  unresolved H = false ->
  proposes_autonomous registry m = true ->
  (processToolCalls (H ++ [m])).1 = H ++ [answer m]
  /\ deltas (processToolCalls (H ++ [m])).2 = announced [answer m]
  /\ unresolved (H ++ [answer m]) = false.
Proof.
  intros HH Hm. unfold Lifecycle.processToolCalls.
  rewrite (proposal_keeps_invariant H m HH Hm).
  apply andb_true_iff in Hm as [_ Hinline].
  assert (Hsplit : forall st,
             resolve_messages false (H ++ [m]) st
             = (H ++ [with_parts m (resolve_parts false (parts m) st).1],
                (resolve_parts false (parts m) st).2)).
  { pose proof (resolved_history_idle H HH) as Hidle. clear HH Hinline.
    induction Hidle as [|m0 rest Hm0 _ IH]; intros st.
    - by rewrite !app_nil_l, ExecutorFacts.resolve_messages_cons.
    - rewrite <- !app_comm_cons, ExecutorFacts.resolve_messages_cons.
      rewrite (ExecutorFacts.resolve_parts_idle _ _ _ _ _ false _ st Hm0). simpl.
      by rewrite IH, ExecutorFacts.with_parts_same. }
  rewrite Hsplit. simpl.
  destruct (resolve_parts_settle (parts m) start eq_refl Hinline) as (-> & _ & ->).
  split; [reflexivity|]. split.
  - unfold announced, answer. by rewrite bind_singleton.
  - rewrite unresolved_app, HH. unfold unresolved, answer. simpl.
    rewrite orb_false_r. clear -Hinline.
    induction (parts m) as [|p ps IH]; [done|].
    simpl in Hinline. apply andb_true_iff in Hinline as [Hp Hps].
    rewrite fmap_cons. simpl. by rewrite (settle_inline_resolved p Hp), (IH Hps).
Qed.

Lemma proposal_has_tool (m : Message) :
  proposes_autonomous registry m = true -> existsb is_tool (parts m) = true.
Proof.
  intros [Hone _]%andb_true_iff. apply bool_decide_eq_true in Hone.
  induction (parts m) as [|p ps IH]; [done|].
  simpl. destruct (is_tool p) eqn:Hp; [done|].
  rewrite filter_cons_False in Hone by (by rewrite Hp). by apply IH.
Qed.

(** The loop from any point short of the budget: with enough fuel it runs
    the steps that are left and ends DONE at the budget.  Each message it
    adds is the model's answer to the history accumulated before it, with
    its call settled, and the stream has grown by the deltas of these
    messages. *)
Lemma step_loop_runs_out (model : list Message -> Message) (budget : nat) :
  (forall h, proposes_autonomous registry (model h) = true) ->
  forall (left fuel taken : nat) (H : list Message) (out : list Delta),
    unresolved H = false ->
    taken + S left = budget ->
    S left <= fuel ->
    exists t added,
      step_loop fuel budget model taken H out = Some t
      /\ outcome t = DONE
      /\ steps t = budget
      /\ history t = H ++ added
      /\ length added = S left
      /\ (forall i, i < S left ->
            added !! i = Some (answer (model (H ++ take i added))))
      /\ streamed t = out ++ announced added
      /\ length (announced added) = S left
      /\ unresolved (history t) = false.
Proof.
  intros Hmodel. induction left as [|left IH]; intros fuel taken H out HH Hsum Hfuel;
    (destruct fuel as [|fuel]; [lia|]); simpl;
    destruct (pass_after_proposal H (model H) HH (Hmodel H)) as (Hpass & Hdeltas & Hres);
    destruct (processToolCalls (H ++ [model H])) as [H' pass]; simpl in Hpass, Hdeltas;
    subst H'; rewrite (proposal_has_tool _ (Hmodel H));
    simpl; rewrite Hres; unfold stepCountIs.
  - rewrite bool_decide_eq_true_2 by lia.
    eexists. exists [answer (model H)]. simpl.
    split; [reflexivity|]. split; [done|]. split; [simpl; lia|]. split; [done|].
    split; [done|]. split.
    { intros i Hi. replace i with 0 by lia. simpl. by rewrite app_nil_r. }
    split; [by rewrite Hdeltas|]. split; [|done].
    by apply answer_one_delta.
  - rewrite bool_decide_eq_false_2 by lia.
    destruct (IH fuel (S taken) (H ++ [answer (model H)]) (out ++ deltas pass) Hres)
      as (t & added & Hrun & Hdone & Hsteps & Hhist & Hlen & Heach & Hstream
            & Hcount & Hsettled); [lia..|].
    exists t, (answer (model H) :: added).
    split; [done|]. split; [done|]. split; [done|].
    split; [by rewrite Hhist, <- app_assoc|].
    split; [simpl; lia|]. split.
    { intros [|i] Hi; simpl.
      - by rewrite app_nil_r.
      - rewrite (Heach i) by lia. by rewrite <- app_assoc. }
    split.
    { rewrite Hstream, Hdeltas, <- app_assoc. f_equal.
      by rewrite <- announced_app. }
    split; [|done].
    change (answer (model H) :: added) with ([answer (model H)] ++ added).
    rewrite announced_app, length_app, Hcount, (answer_one_delta _ (Hmodel H)). lia.
Qed.

(** C3: the step loop is bounded by the budget of 10 steps.  In a turn
    opened by a new message without unresolved calls (the user's), with a
    model that proposes a new autonomous call at every step, the loop ends
    (whatever fuel of at least 10 the recursion is given) in state DONE
    after exactly 10 steps, and it surfaces what it has accumulated.  The
    history is the cleaned history followed by 10 messages; each of them is
    what the model generated for the history accumulated before it, with its
    call run and settled; the stream holds the deltas of these 10 calls, in
    order, and nothing else; and no call is left unresolved. *)
Theorem step_budget_ends_the_turn (meaningful : Part -> bool)
    (model : list Message -> Message) (H : list Message) (u : Message) (fuel : nat) :
  existsb is_pending (parts u) = false ->
  (forall h, proposes_autonomous registry (model h) = true) ->
  Server.stepBudget <= fuel ->
  exists t added,
    onChatMessage registry executions decisions cancellation_marker format_error
      meaningful fuel model (H ++ [u]) = Some t
    /\ outcome t = DONE
    /\ steps t = 10
    /\ history t = cleanupMessages meaningful (H ++ [u]) ++ added
    /\ length added = 10
    /\ (forall i, i < 10 ->
          added !! i
          = Some (answer (model (cleanupMessages meaningful (H ++ [u]) ++ take i added))))
    /\ streamed t = announced added
    /\ length (streamed t) = 10
    /\ unresolved (history t) = false.
Proof.
  intros Hu Hmodel Hfuel. unfold onChatMessage.
  pose proof (SanitizerFacts.cleanupMessages_resolved meaningful H u Hu) as Hclean.
  rewrite (processToolCalls_resolved _ Hclean).
  destruct (step_loop_runs_out model Server.stepBudget Hmodel 9 fuel 0
              (cleanupMessages meaningful (H ++ [u])) [] Hclean eq_refl Hfuel)
    as (t & added & Hrun & Hdone & Hsteps & Hhist & Hlen & Heach & Hstream
          & Hcount & Hsettled).
  exists t, added. simpl in Hstream. rewrite Hstream. by repeat split.
Qed.

End Loop.

(** A model that asks for the local time at every step is cut off at the
    tenth: the history holds its ten calls, each answered "10am", and the
    stream their ten deltas. *)
Lemma step_budget_ends_the_turn_run :
  exists t added,
    onChatMessage Sample.registry Sample.executions Sample.rejections
      "cancelled" Sample.format_error Sample.meaningful 10 Sample.clock_model
      ([] ++ [Sample.question]) = Some t
    /\ outcome t = DONE
    /\ steps t = 10
    /\ history t = cleanupMessages Sample.meaningful ([] ++ [Sample.question]) ++ added
    /\ length added = 10
    /\ (forall i, i < 10 ->
          added !! i
          = Some (answer Sample.registry Sample.format_error
                    (Sample.clock_model
                       (cleanupMessages Sample.meaningful ([] ++ [Sample.question])
                          ++ take i added))))
    /\ streamed t = announced added
    /\ length (streamed t) = 10
    /\ unresolved (history t) = false.
Proof.
  apply (step_budget_ends_the_turn Sample.registry Sample.executions Sample.rejections
           "cancelled" Sample.format_error Sample.meaningful Sample.clock_model
           [] Sample.question 10).
  - reflexivity.
  - intros h. reflexivity.
  - unfold Server.stepBudget. lia.
Defined.

(** The same turn, run: ten steps, ten answered calls after the question,
    ten deltas; with fuel to spare it still stops at 10 steps. *)
Example clock_model_stops_at_ten :
  (fun t => (outcome t, steps t, length (history t), length (streamed t),
             last (history t) ≫= (fun m => head (parts m)),
             last (streamed t)))
    <$> onChatMessage Sample.registry Sample.executions Sample.rejections
          "cancelled" Sample.format_error Sample.meaningful 50 Sample.clock_model
          [Sample.question]
  = Some (DONE, 10, 11, 10,
          Some (Tool {| toolCallId := "call"; toolName := "getLocalTime";
                        state := OutputAvailable; input := "{}";
                        output := Some "10am" |}),
          Some {| delta_for := "call"; delta_state := OutputAvailable;
                  delta_output := Some "10am" |}).
Proof. vm_compute. reflexivity. Qed.

Example confirmed_call_pauses :
  (fun t => (outcome t, steps t))
    <$> onChatMessage Sample.registry Sample.executions ∅
          "cancelled" Sample.format_error Sample.meaningful 50
          (fun _ => {| id := "gen"; role := Assistant;
                       parts := [Tool Sample.calendar_call]; metadata := None |})
          [Sample.question]
  = Some (TOOL_PENDING, 1).
Proof. vm_compute. reflexivity. Qed.

End LoopFacts.

(** * Further properties of the sources *)

(** ** The executors of [tools.ts], beyond their failures *)
Module ToolsMore.
Import Js Tools Observe.

Section WithHost.
Context `{Host}.

(** X1: [scheduleTask] calls the agent at most once, and only to
    schedule: when the type is no-schedule or no agent is current it makes no
    call; otherwise its one call is [agent.schedule] with the value the type
    selects, the callback name "executeTask" and the task description (with
    the due date) as payload. *)
Theorem scheduleTask_calls_agent_once (rt : Runtime) (a : ScheduleInput) :
  agent_calls (scheduleTask_execute rt a).2
  = if decide (type (when a) = NoSchedule) then []
    else match currentAgent rt with
         | None => []
         | Some _ =>
             [AgentSchedule (schedule_value (when a)) "executeTask" (taskDescription a)]
         end.
Proof.
  unfold scheduleTask_execute, scheduleTask_body, schedule_value.
  case_decide as Hty; [reflexivity|].
  destruct (type (when a)); try done;
    destruct (currentAgent rt) as [ag|]; simpl; try reflexivity;
    match goal with |- context [schedule ?g ?i ?c ?d] =>
      destruct (schedule g i c d) as [p|e] end; simpl;
    try destruct (to_String e); reflexivity.
Qed.

(** X2: [scheduleTask] does not wait for the promise [agent.schedule]
    returns: as soon as the call returns, the executor answers with the
    success text, whether that promise is fulfilled or rejected. *)
Theorem scheduleTask_answers_on_return (rt : Runtime) (ag : Agent)
    (a : ScheduleInput) (p : Promise JsSchedule) :
  currentAgent rt = Some ag ->
  type (when a) <> NoSchedule ->
  schedule ag (schedule_value (when a)) "executeTask" (taskDescription a) = Return p ->
  shown (scheduleTask_execute rt a) = Some (scheduled_text a).
Proof.
  intros Hag Hty Hret.
  unfold shown, scheduleTask_execute, scheduleTask_body, scheduled_text, schedule_value in *.
  rewrite Hag. case_decide; [done|].
  destruct (type (when a)); try done; simpl; rewrite Hret; simpl;
    by destruct (truthy (dueDate a)).
Qed.

(** X3: a due date that is the empty string counts as no due date: the
    executor does and answers exactly what it does without one. *)
Theorem blank_due_date_is_none (rt : Runtime) (a : ScheduleInput) :
  dueDate a = Some EmptyString ->
  scheduleTask_execute rt a = scheduleTask_execute rt (without_due a).
Proof.
  intros Hdue.
  unfold scheduleTask_execute, scheduleTask_body, taskDescription, without_due.
  simpl. rewrite Hdue. reflexivity.
Qed.

(** X4: [getScheduledTasks] never answers with an empty list of rows:
    when it answers with rows, they are the rows the agent returned, and
    there is at least one. *)
Theorem getScheduledTasks_rows (rt : Runtime) (rows : list JsSchedule) :
  (getScheduledTasks_execute rt tt).1 = Fulfilled (OutSchedules rows) ->
  rows <> []
  /\ exists ag, currentAgent rt = Some ag /\ getSchedules ag = Return (Some rows).
Proof.
  unfold getScheduledTasks_execute.
  destruct (currentAgent rt) as [ag|]; simpl; [|discriminate].
  destruct (getSchedules ag) as [[[|row others]|]|e] eqn:Hget; simpl;
    try destruct (to_String e); try discriminate.
  intros Hout. injection Hout as <-. split; [done|]. by exists ag.
Qed.

(** X5: [cancelScheduledTask] reports success exactly when
    [agent.cancelSchedule] returns a promise that is fulfilled, whatever the
    boolean it is fulfilled with; in particular a cancellation that found no
    task is reported as a success. *)
Theorem cancelScheduledTask_success (rt : Runtime) (taskId : string) :
  shown (cancelScheduledTask_execute rt taskId) = Some (canceled_text taskId)
  <-> exists ag found,
        currentAgent rt = Some ag
        /\ cancelSchedule ag taskId = Return (Fulfilled found).
Proof.
  unfold shown, cancelScheduledTask_execute, canceled_text. split.
  - destruct (currentAgent rt) as [ag|]; simpl; [|discriminate].
    destruct (cancelSchedule ag taskId) as [[found|e]|e] eqn:Hcancel; simpl;
      try destruct (to_String e); try discriminate.
    intros _. by exists ag, found.
  - intros (ag & found & -> & Hcancel). simpl. by rewrite Hcancel.
Qed.

(** X6: [executions.createCalendarEvent] calls [createCalendarEvent] of
    [lib/google-calendar] only when the three credentials are set and not
    empty, and then once, with the input it was given and the environment it
    read; without them it makes no call. *)
Theorem createCalendarEvent_calls_google (rt : Runtime) (input : CalendarEventInput) :
  google_calls (createCalendarEvent_run rt input).2
  = if credentials_loaded rt then [GoogleCreate input (process_env rt)] else [].
Proof.
  unfold createCalendarEvent_run, credentials_loaded.
  destruct (process_env rt) as [env|]; simpl; [|reflexivity].
  destruct (truthy (GOOGLE_CLIENT_ID env)); [|reflexivity].
  destruct (truthy (GOOGLE_CLIENT_SECRET env)); [|reflexivity].
  destruct (truthy (GOOGLE_REFRESH_TOKEN env)); [|reflexivity].
  simpl. destruct (createGoogleCalendarEvent rt input (Some env)) as [result|e];
    simpl; [done|]. by destruct (message_or_String e).
Qed.

(** X25: a [catch] block puts what it caught into its text with a
    template literal (with [String(error)] in
    [executions.createCalendarEvent]).  When that conversion throws, as it
    does for a Symbol in a template literal and for an object no string can
    be made of, the block throws in its turn: the promise of the executor is
    rejected with what the conversion threw, and no text is returned. *)
Theorem conversion_failure_escapes (rt : Runtime) (e raised : Thrown) :
  (forall ag a,
      currentAgent rt = Some ag ->
      type (when a) <> NoSchedule ->
      schedule ag (schedule_value (when a)) "executeTask" (taskDescription a) = Throw e ->
      to_String e = Throw raised ->
      (scheduleTask_execute rt a).1 = Rejected raised)
  /\ (forall ag,
      currentAgent rt = Some ag ->
      getSchedules ag = Throw e ->
      to_String e = Throw raised ->
      (getScheduledTasks_execute rt tt).1 = Rejected raised)
  /\ (forall ag taskId,
      currentAgent rt = Some ag ->
      cancelSchedule ag taskId = Throw e \/ cancelSchedule ag taskId = Return (Rejected e) ->
      to_String e = Throw raised ->
      (cancelScheduledTask_execute rt taskId).1 = Rejected raised)
  /\ (forall input,
      credentials_loaded rt = true ->
      createGoogleCalendarEvent rt input (process_env rt) = Rejected e ->
      message_or_String e = Throw raised ->
      (createCalendarEvent_run rt input).1 = Rejected raised).
Proof.
  repeat split.
  - intros ag a Hag Hty Hthrow Hconv.
    unfold scheduleTask_execute, scheduleTask_body, schedule_value in *.
    rewrite Hag. case_decide; [done|].
    destruct (type (when a)); try done; simpl; rewrite Hthrow; simpl;
      rewrite Hconv; reflexivity.
  - intros ag Hag Hthrow Hconv. unfold getScheduledTasks_execute.
    rewrite Hag. simpl. rewrite Hthrow. simpl. rewrite Hconv. reflexivity.
  - intros ag taskId Hag [Hthrow | Hthrow] Hconv; unfold cancelScheduledTask_execute;
      rewrite Hag; simpl; rewrite Hthrow; simpl; rewrite Hconv; reflexivity.
  - intros input Hcred Hrej Hconv.
    destruct (ToolsFacts.createCalendarEvent_awaits rt input Hcred) as (env & Henv & ->).
    rewrite Henv in Hrej. simpl. rewrite Hrej. simpl. rewrite Hconv. reflexivity.
Qed.

(** With the credentials loaded, what the calendar code is fulfilled with is
    what the tool returns. *)
Lemma createCalendarEvent_fulfilled (rt : Runtime) (input : CalendarEventInput)
    (result : string) :
  credentials_loaded rt = true ->
  createGoogleCalendarEvent rt input (process_env rt) = Fulfilled result ->
  shown (createCalendarEvent_run rt input) = Some result.
Proof.
  unfold shown, credentials_loaded, createCalendarEvent_run. intros Hcred Hgoogle.
  destruct (process_env rt) as [env|]; [|done]. simpl in *.
  destruct (truthy (GOOGLE_CLIENT_ID env)); [|done].
  destruct (truthy (GOOGLE_CLIENT_SECRET env)); [|done].
  destruct (truthy (GOOGLE_REFRESH_TOKEN env)); [|done].
  simpl. by rewrite Hgoogle.
Qed.

End WithHost.

(** [cancelSchedule] rejects with a Symbol: the executor rejects with the
    [TypeError] of the template literal. *)
Lemma conversion_failure_escapes_run :
  (cancelScheduledTask_execute SampleMore.symbol_runtime "t1").1
  = Rejected (new_TypeError "Cannot convert a Symbol value to a string").
Proof.
  destruct (conversion_failure_escapes SampleMore.symbol_runtime (Symbol "busy")
              (new_TypeError "Cannot convert a Symbol value to a string"))
    as (_ & _ & Hcancel & _).
  apply (Hcancel SampleMore.symbol_agent "t1"); [reflexivity | by right | reflexivity].
Defined.

(** The rejecting agent hands back a promise that rejects; the answer is the
    success text all the same. *)
Lemma scheduleTask_answers_on_return_run :
  shown (scheduleTask_execute Sample.rejecting_runtime Sample.in_a_minute)
  = Some (scheduled_text Sample.in_a_minute).
Proof.
  apply (scheduleTask_answers_on_return Sample.rejecting_runtime Sample.rejecting_agent
           Sample.in_a_minute (Rejected (new_Error "Invalid schedule type")));
    [reflexivity | discriminate | reflexivity].
Defined.

(** The busy runtime, with a blank due date and with none. *)
Lemma blank_due_date_is_none_run :
  scheduleTask_execute SampleMore.busy_runtime SampleMore.blank_due
  = scheduleTask_execute SampleMore.busy_runtime (without_due SampleMore.blank_due).
Proof. apply (blank_due_date_is_none SampleMore.busy_runtime SampleMore.blank_due). reflexivity. Defined.

(** The two rows of the busy agent. *)
Lemma getScheduledTasks_rows_run :
  ["row-1"; "row-2"] <> ([] : list string)
  /\ exists ag, currentAgent SampleMore.busy_runtime = Some ag
                /\ getSchedules ag = Return (Some ["row-1"; "row-2"]).
Proof. apply (getScheduledTasks_rows SampleMore.busy_runtime ["row-1"; "row-2"]). reflexivity. Defined.

(** The busy agent's [cancelSchedule] is fulfilled with [false]: success. *)
Lemma cancelScheduledTask_success_run :
  shown (cancelScheduledTask_execute SampleMore.busy_runtime "t9")
  = Some (canceled_text "t9").
Proof.
  apply (cancelScheduledTask_success SampleMore.busy_runtime "t9").
  exists SampleMore.busy_agent, false. split; reflexivity.
Defined.

End ToolsMore.

(** ** lib/google-calendar.ts *)
Module GoogleFacts.
Import Js Text GoogleCalendar.

Section WithDates.
Context `{Dates}.

Lemma bind_ret_l {Ev A B : Type} (a : A) (k : A -> @Exec Ev B) : bind (ret a) k = k a.
Proof. unfold bind, ret. by destruct (k a). Qed.

(** The key of a service account is read and nothing comes of it: what
    [getAccessToken] does is what it does with the refresh token. *)
Lemma getAccessToken_refresh_token (w : World) (env : option Env) :
  getAccessToken w env
  = let clientId := getEnv w env "GOOGLE_CLIENT_ID" in
    let clientSecret := getEnv w env "GOOGLE_CLIENT_SECRET" in
    let refreshToken := getEnv w env "GOOGLE_REFRESH_TOKEN" in
    if negb (truthy clientId) || negb (truthy clientSecret) || negb (truthy refreshToken)
    then throw (new_Error not_configured)
    else
      bind (fetched w (token_request (render_opt clientId) (render_opt clientSecret)
                         (render_opt refreshToken)))
        (fun response =>
           if negb (ok response) then
             bind (await (text response))
               (fun error => throw (new_Error ("Failed to get access token: " +:+ error)))
           else bind (await (json response)) (fun data => property data "access_token")).
Proof.
  unfold getAccessToken.
  destruct (truthy (getEnv w env "GOOGLE_SERVICE_ACCOUNT_KEY")); apply bind_ret_l.
Qed.

(** X7: without the three credentials nothing is sent: the call is
    rejected with the configuration error, and its only effect is the line
    on the console. *)
Theorem no_request_without_credentials (w : World) (input : CalendarEventInput)
    (env : option Env) :
  configured w env = false ->
  createCalendarEvent w input env
  = (Rejected (new_Error not_configured),
     [ConsoleError "Error creating calendar event:" (new_Error not_configured)]).
Proof.
  unfold configured, createCalendarEvent. rewrite getAccessToken_refresh_token.
  intros Hmiss. simpl.
  destruct (truthy (getEnv w env "GOOGLE_CLIENT_ID")); [|reflexivity].
  destruct (truthy (getEnv w env "GOOGLE_CLIENT_SECRET")); [|reflexivity].
  destruct (truthy (getEnv w env "GOOGLE_REFRESH_TOKEN")); [done|reflexivity].
Qed.

(** What [getAccessToken] does once the credentials are there. *)
Lemma getAccessToken_configured (w : World) (env : option Env) :
  configured w env = true ->
  getAccessToken w env
  = bind (fetched w (token_request_of w env))
      (fun response =>
         if negb (ok response) then
           bind (await (text response))
             (fun error => throw (new_Error ("Failed to get access token: " +:+ error)))
         else bind (await (json response)) (fun data => property data "access_token")).
Proof.
  rewrite getAccessToken_refresh_token.
  unfold configured, token_request_of. intros Hconf. simpl.
  apply andb_true_iff in Hconf as [Hconf Htoken].
  apply andb_true_iff in Hconf as [Hid Hsecret].
  by rewrite Hid, Hsecret, Htoken.
Qed.

(** X8: when Google answers the token request with a status that is not
    ok, the call is rejected with "Failed to get access token: " followed by
    the body of that answer, and the events endpoint is never contacted: the
    token request is the only one sent. *)
Theorem token_refusal_stops_the_call (w : World) (input : CalendarEventInput)
    (env : option Env) (response : Response) (reason : string) :
  configured w env = true ->
  fetch w (token_request_of w env) = Fulfilled response ->
  ok response = false ->
  text response = Fulfilled reason ->
  (createCalendarEvent w input env).1
  = Rejected (new_Error ("Failed to get access token: " +:+ reason))
  /\ requests (createCalendarEvent w input env).2 = [token_request_of w env].
Proof.
  intros Hconf Hfetch Hok Htext. unfold createCalendarEvent.
  rewrite (getAccessToken_configured w env Hconf). unfold fetched.
  simpl. rewrite Hfetch. simpl. rewrite Hok. simpl. rewrite Htext. simpl.
  split; reflexivity.
Qed.

(** X9: a call that succeeds sends two requests, in this order: the token
    request, then the event, posted with the token of the first answer as
    its bearer; and it is fulfilled with the text that names the title and
    the link of the second answer. *)
Theorem created_with_the_granted_token (w : World) (input : CalendarEventInput)
    (env : option Env) (granted created : Response)
    (token_fields event_fields : gmap string string) :
  configured w env = true ->
  fetch w (token_request_of w env) = Fulfilled granted ->
  ok granted = true ->
  json granted = Fulfilled (PValue token_fields) ->
  fetch w (events_request (token_fields !! "access_token") (event_of w input))
  = Fulfilled created ->
  ok created = true ->
  json created = Fulfilled (PValue event_fields) ->
  (createCalendarEvent w input env).1
  = Fulfilled (created_text (Tools.title input) (event_fields !! "htmlLink"))
  /\ requests (createCalendarEvent w input env).2
     = [token_request_of w env;
        events_request (token_fields !! "access_token") (event_of w input)].
Proof.
  intros Hconf Hfetch1 Hok1 Hjson1 Hfetch2 Hok2 Hjson2.
  unfold createCalendarEvent, event_of in *.
  rewrite (getAccessToken_configured w env Hconf). unfold fetched.
  simpl. rewrite Hfetch1. simpl. rewrite Hok1. simpl. rewrite Hjson1. simpl.
  rewrite Hfetch2. simpl. rewrite Hok2. simpl. rewrite Hjson2. simpl.
  split; reflexivity.
Qed.

(** X10: when the events endpoint answers with a status that is not ok,
    the call is rejected with "Failed to create calendar event: " followed by
    the body of that answer. *)
Theorem event_refusal_is_reported (w : World) (input : CalendarEventInput)
    (env : option Env) (granted refused : Response)
    (token_fields : gmap string string) (reason : string) :
  configured w env = true ->
  fetch w (token_request_of w env) = Fulfilled granted ->
  ok granted = true ->
  json granted = Fulfilled (PValue token_fields) ->
  fetch w (events_request (token_fields !! "access_token") (event_of w input))
  = Fulfilled refused ->
  ok refused = false ->
  text refused = Fulfilled reason ->
  (createCalendarEvent w input env).1
  = Rejected (new_Error ("Failed to create calendar event: " +:+ reason)).
Proof.
  intros Hconf Hfetch1 Hok1 Hjson1 Hfetch2 Hok2 Htext2.
  unfold createCalendarEvent, event_of in *.
  rewrite (getAccessToken_configured w env Hconf). unfold fetched.
  simpl. rewrite Hfetch1. simpl. rewrite Hok1. simpl. rewrite Hjson1. simpl.
  rewrite Hfetch2. simpl. rewrite Hok2. simpl. rewrite Htext2. reflexivity.
Qed.

(** The three keys of the object the tool hands over are read from it. *)
Lemma getEnv_handed (w : World) (e : Tools.GoogleEnv) :
  getEnv w (Some (env_object e)) "GOOGLE_CLIENT_ID" = Tools.GOOGLE_CLIENT_ID e
  /\ getEnv w (Some (env_object e)) "GOOGLE_CLIENT_SECRET" = Tools.GOOGLE_CLIENT_SECRET e
  /\ getEnv w (Some (env_object e)) "GOOGLE_REFRESH_TOKEN" = Tools.GOOGLE_REFRESH_TOKEN e.
Proof. unfold getEnv, env_object. repeat split; by simplify_map_eq. Qed.

(** X11: the credentials the tool hands over are the ones used.  Called
    with the object [executions.createCalendarEvent] builds, the token
    request carries the three values of that object, and the result and the
    events of the call are the same whatever [process.env] holds by then.
    [process.env] is still read, for the key of a service account, which the
    object does not have; nothing depends on what is found there. *)
Theorem handed_credentials_are_used (w : World) (input : CalendarEventInput)
    (e : Tools.GoogleEnv) (variables : option (gmap string string)) :
  token_request_of (with_process_env w variables) (Some (env_object e))
  = token_request (render_opt (Tools.GOOGLE_CLIENT_ID e))
      (render_opt (Tools.GOOGLE_CLIENT_SECRET e))
      (render_opt (Tools.GOOGLE_REFRESH_TOKEN e))
  /\ getEnv (with_process_env w variables) (Some (env_object e))
       "GOOGLE_SERVICE_ACCOUNT_KEY"
     = variables ≫= (fun vars => vars !! "GOOGLE_SERVICE_ACCOUNT_KEY")
  /\ createCalendarEvent (with_process_env w variables) input (Some (env_object e))
     = createCalendarEvent w input (Some (env_object e)).
Proof.
  split; [|split].
  - unfold token_request_of.
    by destruct (getEnv_handed (with_process_env w variables) e) as (-> & -> & ->).
  - reflexivity.
  - unfold createCalendarEvent. rewrite !getAccessToken_refresh_token. cbv zeta.
    destruct (getEnv_handed w e) as (-> & -> & ->).
    destruct (getEnv_handed (with_process_env w variables) e) as (-> & -> & ->).
    reflexivity.
Qed.

Lemma details_default (d : option string) :
  (if truthy d then render_opt d else EmptyString) = default EmptyString d.
Proof. by destruct d as [[|c s]|]. Qed.

(** X12: the event never carries an undefined description or an empty
    location: the description is the one given, or the empty string when it
    is missing; a location that is missing or empty is left out; the guests
    are the attendees as given (an empty list is still sent); both ends of
    the event are in the same time zone. *)
Theorem event_is_well_formed (input : CalendarEventInput)
    (startDateTime endDateTime : string) :
  details (calendarEvent input startDateTime endDateTime)
  = Some (default EmptyString (Tools.description input))
  /\ place (calendarEvent input startDateTime endDateTime)
     = match Tools.location input with
       | Some (String c s) => Some (String c s)
       | _ => None
       end
  /\ guests (calendarEvent input startDateTime endDateTime) = Tools.attendees input
  /\ zone (start (calendarEvent input startDateTime endDateTime))
     = zone (finish (calendarEvent input startDateTime endDateTime)).
Proof.
  unfold calendarEvent. simpl. rewrite details_default.
  repeat split. by destruct (Tools.location input) as [[|c s]|].
Qed.

(** *** parseDateTime *)

Lemma clock_hour_twelve (h : nat) (ap : Meridiem) :
  1 <= h <= 12 ->
  clock_hour h (Some ap) < 24
  /\ clock_hour h (Some ap) mod 12 = h mod 12
  /\ (12 <= clock_hour h (Some ap) <-> ap = PM).
Proof.
  intros Hh. unfold clock_hour.
  assert (Hcases : h = 1 \/ h = 2 \/ h = 3 \/ h = 4 \/ h = 5 \/ h = 6 \/ h = 7
                   \/ h = 8 \/ h = 9 \/ h = 10 \/ h = 11 \/ h = 12) by lia.
  destruct ap; repeat (destruct Hcases as [->|Hcases]); try subst h; simpl;
    repeat split; try lia; try done; intros; lia.
Qed.

(** X13: a reading of the twelve-hour clock is put on the twenty-four-hour
    clock: when the text gives an hour from 1 to 12 with am or pm, the hour
    handed to [setHours] is below 24, agrees with the hour given modulo 12,
    and is 12 or more exactly for pm (so 12am is 0 and 12pm is 12). *)
Theorem twelve_hour_clock (now : Instant) (text : string) (h : nat)
    (m : option nat) (ap : Meridiem) :
  time_match text
  = Some {| hour_digits := h; minute_digits := m; meridiem := Some ap |} ->
  1 <= h <= 12 ->
  exists h24,
    parseDateTime now text defaultHour
    = toISOString (setHours (day_of now text) h24 (default 0 m))
    /\ h24 < 24
    /\ h24 mod 12 = h mod 12
    /\ (12 <= h24 <-> ap = PM).
Proof.
  intros Hmatch Hh. exists (clock_hour h (Some ap)).
  split; [|by apply clock_hour_twelve].
  unfold parseDateTime, day_of. rewrite Hmatch. reflexivity.
Qed.

Lemma time_match_none (text : string) :
  has_digit text = false -> time_match text = None.
Proof.
  induction text as [|c rest IH]; [done|]. simpl.
  intros [-> Hrest]%orb_false_iff. by apply IH.
Qed.

(** X14: a text without a digit gives the default hour: the date is set
    to 14:00 of the day, whatever else the text says. *)
Theorem no_digit_gives_default_hour (now : Instant) (text : string) :
  has_digit text = false ->
  parseDateTime now text defaultHour
  = toISOString (setHours (day_of now text) 14 0).
Proof.
  intros Hnone. unfold parseDateTime, day_of.
  by rewrite (time_match_none text Hnone).
Qed.

Lemma digit_bounds (c : Ascii.ascii) : is_digit c = true -> 48 <= code c <= 57.
Proof.
  unfold is_digit. intros [Hlow Hhigh]%andb_true_iff.
  apply Nat.leb_le in Hlow, Hhigh. lia.
Qed.

Ltac decide_codes :=
  repeat match goal with
    | |- context [Nat.eqb ?x ?y] => destruct (Nat.eqb_spec x y); try lia
    end.

Lemma digit_is_no_space (c : Ascii.ascii) (rest : string) :
  is_digit c = true -> skip_spaces (String c rest) = String c rest.
Proof.
  intros Hc%digit_bounds. unfold skip_spaces. simpl String.length.
  cbn [skip_spaces_upto]. unfold space_width. decide_codes. reflexivity.
Qed.

Lemma digit_is_no_meridiem (c : Ascii.ascii) (rest : string) :
  is_digit c = true -> meridiem_at (String c rest) = None.
Proof.
  intros Hc%digit_bounds. unfold meridiem_at.
  destruct rest as [|c2 rest]; [done|]. decide_codes; reflexivity.
Qed.

Lemma digit_is_no_minutes (c : Ascii.ascii) (rest : string) :
  is_digit c = true -> minutes_at (String c rest) = (None, String c rest).
Proof.
  intros Hc%digit_bounds. unfold minutes_at.
  destruct rest as [|m1 [|m2 rest]]; try done. decide_codes. reflexivity.
Qed.

(** X15: the hour is read from the first digits of the text, and no range
    is checked: for a text that starts with three digits, as one that starts
    with a year does, the hour handed to [setHours] is the number the first
    two digits make, with no minutes, whatever follows. *)
Theorem leading_digits_are_the_hour (now : Instant) (d1 d2 d3 : Ascii.ascii)
    (rest : string) :
  is_digit d1 = true -> is_digit d2 = true -> is_digit d3 = true ->
  parseDateTime now (String d1 (String d2 (String d3 rest))) defaultHour
  = toISOString
      (setHours (day_of now (String d1 (String d2 (String d3 rest))))
         (10 * digit_value d1 + digit_value d2) 0).
Proof.
  intros H1 H2 H3. unfold parseDateTime, day_of.
  cbn [time_match]. rewrite H1. unfold match_from. rewrite H2.
  rewrite (digit_is_no_minutes d3 rest H3), (digit_is_no_space d3 rest H3).
  rewrite (digit_is_no_meridiem d3 rest H3). reflexivity.
Qed.

End WithDates.

Lemma loaded_is_configured `{Tools.Host} `{Dates} (w : World)
    (agent : option Tools.Agent) :
  Tools.credentials_loaded (runtime w agent) = true ->
  configured w (env_object <$> read_env w) = true.
Proof.
  unfold Tools.credentials_loaded, configured.
  change (Tools.process_env (runtime w agent)) with (read_env w).
  destruct (read_env w) as [e|]; [|done].
  change (env_object <$> Some e) with (Some (env_object e)).
  by destruct (getEnv_handed w e) as (-> & -> & ->).
Qed.

(** X16: from the tool to the user: when the credentials are loaded and
    Google answers the token request with a status that is not ok, the text
    the tool returns is the failure frame around "Failed to get access
    token: " and the body of Google's answer. *)
Theorem token_refusal_reaches_the_user `{Tools.Host} `{Dates} (w : World)
    (agent : option Tools.Agent) (input : CalendarEventInput)
    (response : Response) (reason : string) :
  Tools.credentials_loaded (runtime w agent) = true ->
  fetch w (token_request_of w (env_object <$> read_env w)) = Fulfilled response ->
  ok response = false ->
  text response = Fulfilled reason ->
  Tools.shown (Tools.createCalendarEvent_run (runtime w agent) input)
  = Some (Tools.failure_prefix +:+ ("Failed to get access token: " +:+ reason)
            +:+ Tools.failure_suffix).
Proof.
  intros Hloaded Hfetch Hok Htext.
  pose proof (loaded_is_configured w agent Hloaded) as Hconf.
  unfold Tools.shown.
  rewrite (ToolsFacts.createCalendarEvent_rejected (runtime w agent) input
             (new_Error ("Failed to get access token: " +:+ reason))
             ("Failed to get access token: " +:+ reason) Hloaded);
    [reflexivity| |reflexivity].
  simpl. unfold createCalendarEvent.
  rewrite (getAccessToken_configured w _ Hconf). unfold fetched.
  simpl. rewrite Hfetch. simpl. rewrite Hok. simpl. by rewrite Htext.
Qed.

(** X24: from the tool to the user, when all goes well: with the
    credentials loaded, a token granted and the event accepted, the text the
    tool returns names the title and the link Google answered with. *)
Theorem creation_reaches_the_user `{Tools.Host} `{Dates} (w : World)
    (agent : option Tools.Agent) (input : CalendarEventInput)
    (granted created : Response) (token_fields event_fields : gmap string string) :
  Tools.credentials_loaded (runtime w agent) = true ->
  fetch w (token_request_of w (env_object <$> read_env w)) = Fulfilled granted ->
  ok granted = true ->
  json granted = Fulfilled (PValue token_fields) ->
  fetch w (events_request (token_fields !! "access_token") (event_of w input))
  = Fulfilled created ->
  ok created = true ->
  json created = Fulfilled (PValue event_fields) ->
  Tools.shown (Tools.createCalendarEvent_run (runtime w agent) input)
  = Some (created_text (Tools.title input) (event_fields !! "htmlLink")).
Proof.
  intros Hloaded Hfetch1 Hok1 Hjson1 Hfetch2 Hok2 Hjson2.
  apply ToolsMore.createCalendarEvent_fulfilled; [done|].
  pose proof (loaded_is_configured w agent Hloaded) as Hconf.
  simpl. unfold createCalendarEvent, event_of in *.
  rewrite (getAccessToken_configured w _ Hconf). unfold fetched.
  simpl. rewrite Hfetch1. simpl. rewrite Hok1. simpl. rewrite Hjson1. simpl.
  rewrite Hfetch2. simpl. rewrite Hok2. simpl. by rewrite Hjson2.
Qed.

(** *** The calendar code run in the sample worlds *)

(** No variable set, no object handed over: nothing is sent. *)
Lemma no_request_without_credentials_run :
  createCalendarEvent SampleGoogle.bare Sample.standup None
  = (Rejected (new_Error not_configured),
     [ConsoleError "Error creating calendar event:" (new_Error not_configured)]).
Proof. apply (no_request_without_credentials SampleGoogle.bare Sample.standup None). reflexivity. Defined.

(** Google answers "invalid_grant" to the token request. *)
Lemma token_refusal_stops_the_call_run :
  (createCalendarEvent SampleGoogle.refusing Sample.standup None).1
  = Rejected (new_Error "Failed to get access token: invalid_grant")
  /\ requests (createCalendarEvent SampleGoogle.refusing Sample.standup None).2
     = [token_request "id" "secret" "token"].
Proof.
  apply (token_refusal_stops_the_call SampleGoogle.refusing Sample.standup None
           SampleGoogle.refusal "invalid_grant"); reflexivity.
Defined.

(** The token "ya29" of the first answer is the bearer of the second
    request. *)
Lemma created_with_the_granted_token_run :
  (createCalendarEvent SampleGoogle.granting Sample.standup None).1
  = Fulfilled (created_text "Standup" (Some "https://calendar/ev1"))
  /\ requests (createCalendarEvent SampleGoogle.granting Sample.standup None).2
     = [token_request "id" "secret" "token";
        events_request (Some "ya29") (event_of SampleGoogle.granting Sample.standup)].
Proof.
  exact (created_with_the_granted_token SampleGoogle.granting Sample.standup None
           SampleGoogle.granted SampleGoogle.created
           {[ "access_token" := "ya29" ]}
           {[ "id" := "ev1"; "htmlLink" := "https://calendar/ev1" ]}
           eq_refl eq_refl eq_refl eq_refl eq_refl eq_refl eq_refl).
Defined.

(** Google grants the token and answers "quota exceeded" to the event. *)
Lemma event_refusal_is_reported_run :
  (createCalendarEvent SampleGoogle.limiting Sample.standup None).1
  = Rejected (new_Error "Failed to create calendar event: quota exceeded").
Proof.
  exact (event_refusal_is_reported SampleGoogle.limiting Sample.standup None
           SampleGoogle.granted SampleGoogle.over_quota
           {[ "access_token" := "ya29" ]} "quota exceeded"
           eq_refl eq_refl eq_refl eq_refl eq_refl eq_refl eq_refl).
Defined.

(** "tomorrow at 9pm": 21:00 of the next day. *)
Lemma twelve_hour_clock_run :
  exists h24,
    parseDateTime SampleGoogle.this_morning "tomorrow at 9pm" defaultHour
    = toISOString (setHours (day_of SampleGoogle.this_morning "tomorrow at 9pm") h24 (default 0 None))
    /\ h24 < 24
    /\ h24 mod 12 = 9 mod 12
    /\ (12 <= h24 <-> PM = PM).
Proof.
  apply (twelve_hour_clock SampleGoogle.this_morning "tomorrow at 9pm" 9 None PM); [reflexivity | lia].
Defined.

(** "tomorrow afternoon": 14:00 of the next day. *)
Lemma no_digit_gives_default_hour_run :
  parseDateTime SampleGoogle.this_morning "tomorrow afternoon" defaultHour
  = toISOString (setHours (day_of SampleGoogle.this_morning "tomorrow afternoon") 14 0).
Proof. apply (no_digit_gives_default_hour SampleGoogle.this_morning "tomorrow afternoon"). reflexivity. Defined.

(** A text in ISO form, "2026-11-03T10:00": the hour is 20. *)
Lemma leading_digits_are_the_hour_run :
  parseDateTime SampleGoogle.this_morning "2026-11-03T10:00" defaultHour
  = toISOString (setHours (day_of SampleGoogle.this_morning "2026-11-03T10:00") 20 0).
Proof.
  exact (leading_digits_are_the_hour SampleGoogle.this_morning
           (Ascii.ascii_of_nat 50) (Ascii.ascii_of_nat 48) (Ascii.ascii_of_nat 50)
           "6-11-03T10:00" eq_refl eq_refl eq_refl).
Defined.

#[local] Existing Instance Sample.host.

(** The refusal "invalid_grant", as the user of the tool reads it. *)
Lemma token_refusal_reaches_the_user_run :
  Tools.shown (Tools.createCalendarEvent_run (runtime SampleGoogle.refusing None)
                 Sample.standup)
  = Some (Tools.failure_prefix +:+ ("Failed to get access token: " +:+ "invalid_grant")
            +:+ Tools.failure_suffix).
Proof.
  apply (token_refusal_reaches_the_user SampleGoogle.refusing None Sample.standup
           SampleGoogle.refusal "invalid_grant"); reflexivity.
Defined.

(** Google grants the token and creates the event: the tool says so. *)
Lemma creation_reaches_the_user_run :
  Tools.shown (Tools.createCalendarEvent_run (runtime SampleGoogle.granting None)
                 Sample.standup)
  = Some (created_text "Standup" (Some "https://calendar/ev1")).
Proof.
  exact (creation_reaches_the_user SampleGoogle.granting None Sample.standup
           SampleGoogle.granted SampleGoogle.created
           {[ "access_token" := "ya29" ]}
           {[ "id" := "ev1"; "htmlLink" := "https://calendar/ev1" ]}
           eq_refl eq_refl eq_refl eq_refl eq_refl eq_refl eq_refl).
Defined.

End GoogleFacts.

(** ** The tool card, beyond its buttons *)
Module CardMore.
Import Messages Card Text CardView.

Section WithApproval.
Variables YES NO : string.

(** X17: the card asks for a decision exactly when it says so: a control
    that submits a decision is offered if and only if the notice that the
    tool requires approval is rendered, and if and only if the status reads
    "Awaiting Approval"; expanding or collapsing the card changes none of
    this. *)
Theorem decision_matches_status (p : Props) (isExpanded : bool) :
  offers_decision YES NO p isExpanded = shows_notice p
  /\ (shows_notice p = true <-> status (getStatusInfo p) = "⏳ Awaiting Approval").
Proof.
  unfold offers_decision, shows_notice, getStatusInfo, controls.
  destruct (part_state (toolUIPart p)), (needsConfirmation p); simpl;
    (split; [reflexivity | split; [try done | try discriminate]]).
  all: intros _; reflexivity.
Qed.

(** X18: a card that shows a result is finished: it offers no decision,
    its icon does not pulse, and its status reads "Completed". *)
Theorem result_ends_the_decision (p : Props) (isExpanded : bool) :
  shows_result p = true ->
  offers_decision YES NO p isExpanded = false
  /\ pulses p = false
  /\ shows_notice p = false
  /\ status (getStatusInfo p) = "✓ Completed".
Proof.
  unfold shows_result, offers_decision, pulses, shows_notice, getStatusInfo, controls.
  intros [Hstate _]%andb_true_iff. apply bool_decide_eq_true in Hstate.
  rewrite Hstate. simpl. by rewrite andb_false_r.
Qed.

End WithApproval.

Lemma starts_with_prefix (needle rest : string) :
  starts_with needle (needle +:+ rest) = true.
Proof.
  induction needle as [|c needle IH]; [done|].
  change (String c needle +:+ rest) with (String c (needle +:+ rest)).
  simpl. by rewrite Nat.eqb_refl.
Qed.

Lemma skip_prefix (needle rest : string) :
  skip (String.length needle) (needle +:+ rest) = rest.
Proof.
  induction needle as [|c needle IH]; [by destruct rest|].
  change (String c needle +:+ rest) with (String c (needle +:+ rest)).
  simpl. exact IH.
Qed.

Lemma replace_first_prefix (needle rest : string) :
  replace_first needle EmptyString (needle +:+ rest) = rest.
Proof.
  assert (Hstep : forall hay,
             starts_with needle hay = true ->
             replace_first needle EmptyString hay = skip (String.length needle) hay).
  { intros hay Hhay. destruct hay; simpl; by rewrite Hhay. }
  rewrite Hstep by apply starts_with_prefix. apply skip_prefix.
Qed.

(** X19: the tool's name comes back from the type of its part: for a part
    whose type is "tool-" followed by a name, as the parts of tool calls
    are, [toolName] is that name, whatever the name holds. *)
Theorem toolName_of_tool_part (p : Props) (name : string) :
  part_type (toolUIPart p) = "tool-" +:+ name ->
  toolName p = name.
Proof. intros Htype. unfold toolName. rewrite Htype. apply replace_first_prefix. Qed.

(** *** The lines of a page *)

Lemma split_pieces (sep : Ascii.ascii) (s : string) :
  Forall (fun piece => has_byte sep piece = false) (split sep s).
Proof.
  induction s as [|c s IH]; simpl; [by repeat constructor|].
  destruct (Nat.eqb (code c) (code sep)) eqn:Hc; [by constructor|].
  destruct (split sep s) as [|piece pieces]; [by repeat constructor; simpl; rewrite Hc|].
  inversion IH as [|? ? Hpiece Hpieces]; subst.
  constructor; [|done]. simpl. by rewrite Hc.
Qed.

Lemma replace_first_absent (c : Ascii.ascii) (needle by_ line : string) :
  has_byte c line = false ->
  replace_first (String c needle) by_ line = line.
Proof.
  induction line as [|d line IH]; [done|]. simpl.
  intros [Hd Hline]%orb_false_iff.
  rewrite Nat.eqb_sym, Hd. simpl. by rewrite (IH Hline).
Qed.

Lemma bullets_of_pieces (pieces : list string) :
  Forall (fun piece => has_byte nl piece = false) pieces ->
  bullet <$> List.filter (fun line => negb (Js.is_empty line)) pieces
  = (fun line => "- " +:+ line)
      <$> List.filter (fun line => negb (Js.is_empty line)) pieces.
Proof.
  induction 1 as [|piece pieces Hpiece _ IH]; [done|]. simpl.
  destruct (negb (Js.is_empty piece)); [|exact IH].
  rewrite !fmap_cons, IH. f_equal.
  unfold bullet. change (Js.nl +:+ "~ ") with (String nl "~ ").
  by rewrite (replace_first_absent nl _ _ piece Hpiece).
Qed.

(** X20: in the lines of a page the marker is never removed: the lines come
    from splitting the text at its line feeds, so none of them holds the
    line feed the replacement looks for, and each line is shown as it is
    after "- ". *)
Theorem page_lines_keep_their_marker (item : Item) :
  item_type item = "text" ->
  starts_with page_marker (item_text item) = true ->
  render_item item
  = join Js.nl ((fun line => "- " +:+ line) <$> lines_of (item_text item)).
Proof.
  intros Htype Hpage. unfold render_item, lines_of.
  rewrite Htype, Hpage. simpl.
  by rewrite (bullets_of_pieces _ (split_pieces nl (item_text item))).
Qed.

(** The card of a finished calendar call. *)
Lemma toolName_of_tool_part_run : toolName finished_card = "createCalendarEvent".
Proof. apply toolName_of_tool_part. reflexivity. Defined.

Lemma result_ends_the_decision_run :
  offers_decision "Yes, confirmed." "No, denied." finished_card true = false
  /\ pulses finished_card = false
  /\ shows_notice finished_card = false
  /\ status (getStatusInfo finished_card) = "✓ Completed".
Proof. apply result_ends_the_decision. reflexivity. Defined.

(** A page with two lines: both keep "~ ". *)
Lemma page_lines_keep_their_marker_run :
  render_item page
  = join Js.nl ((fun line => "- " +:+ line)
                  <$> ["~ Page URL: https://a"; "~ Title: A"]).
Proof. exact (page_lines_keep_their_marker page eq_refl eq_refl). Defined.

End CardMore.

(** ** The rest of server.ts *)
Module WorkerFacts.
Import Js Messages Text Worker.

Section Intent.
Variable toLowerCase : string -> string.

Lemma lastUserMessage_found (earlier later : list Message) (u : Message) :
  role u = User ->
  Forall (fun m => role m <> User) later ->
  lastUserMessage (earlier ++ u :: later) = Some u.
Proof.
  intros Hu Hlater. unfold lastUserMessage.
  rewrite List.filter_app. simpl. rewrite Hu.
  assert (Hnone : List.filter (fun m => match role m with User => true | _ => false end)
                    later = []).
  { induction Hlater as [|m later Hm _ IH]; [done|]. simpl.
    destruct (role m); [done|exact IH..]. }
  rewrite Hnone. apply last_snoc.
Qed.

Lemma first_text_found (before after : list Part) (text : string) :
  Forall (fun p => is_text p = false) before ->
  first_text (before ++ Text text :: after) = Some text.
Proof. induction 1 as [|p before Hp _ IH]; [done|]. by destruct p. Qed.

(** X21: the intent is read from one place only: the first text part of
    the last user message.  Whatever the earlier messages say, whatever the
    later messages of the assistant say, and whatever follows in the same
    message, [wantsCalendar] is the test on that text in lower case. *)
Theorem intent_is_the_last_user_text (earlier later : list Message) (u : Message)
    (before after : list Part) (text : string) :
  role u = User ->
  Forall (fun m => role m <> User) later ->
  parts u = before ++ Text text :: after ->
  Forall (fun p => is_text p = false) before ->
  wantsCalendar toLowerCase (earlier ++ u :: later)
  = mentions_calendar (toLowerCase text).
Proof.
  intros Hu Hlater Hparts Hbefore. unfold wantsCalendar, userText.
  rewrite (lastUserMessage_found earlier later u Hu Hlater). simpl.
  by rewrite Hparts, (first_text_found before after text Hbefore).
Qed.

Lemma first_text_none (ps : list Part) :
  Forall (fun p => is_text p = false) ps -> first_text ps = None.
Proof. induction 1 as [|p ps Hp _ IH]; [done|]. by destruct p. Qed.

(** X22: with no text to read there is no intent: when the last user
    message holds no text part, [wantsCalendar] is false, even if earlier
    messages ask for the calendar. *)
Theorem no_text_no_intent (earlier later : list Message) (u : Message) :
  role u = User ->
  Forall (fun m => role m <> User) later ->
  Forall (fun p => is_text p = false) (parts u) ->
  wantsCalendar toLowerCase (earlier ++ u :: later) = false.
Proof.
  intros Hu Hlater Hparts. unfold wantsCalendar, userText.
  rewrite (lastUserMessage_found earlier later u Hu Hlater). simpl.
  by rewrite (first_text_none _ Hparts).
Qed.

End Intent.

(** X23: the key does not gate the agent: for every path other than the
    key check, the request goes to [routeAgentRequest] whether or not
    [OPENAI_API_KEY] is set, and the answer is the router's: its response,
    "Not found" when it has none, and its rejection when it rejects. *)
Theorem routing_ignores_the_key {R : Type} (pathname : string) (key : option string)
    (routed : Promise (option R)) :
  pathname <> "/check-open-ai-key" ->
  (handle pathname key routed).1
  = match routed with
    | Fulfilled (Some response) => Fulfilled (Routed response)
    | Fulfilled None => Fulfilled NotFound
    | Rejected e => Rejected e
    end
  /\ List.filter (fun ev => match ev with RouteAgentRequest => true | _ => false end)
       (handle pathname key routed).2
     = [RouteAgentRequest].
Proof.
  intros Hpath. unfold handle. rewrite bool_decide_eq_false_2 by done.
  destruct (truthy key), routed as [[response|]|e]; split; reflexivity.
Qed.

(** Only "block my calendar" is read: not the earlier question, not the
    second part, not the answer. *)
Lemma intent_is_the_last_user_text_run :
  wantsCalendar (fun s => s) exchange = mentions_calendar "block my calendar".
Proof.
  apply (intent_is_the_last_user_text (fun s => s) _ _ _ [] [Text "thanks"]
           "block my calendar"); try reflexivity.
  - repeat constructor; discriminate.
  - constructor.
Defined.

(** The empty message hides the request before it. *)
Lemma no_text_no_intent_run : wantsCalendar (fun s => s) silent = false.
Proof. apply no_text_no_intent; [reflexivity | constructor | constructor]. Defined.

(** Without a key, a path the router does not know: 404, and the router was
    asked. *)
Lemma routing_ignores_the_key_run :
  (handle "/agents/chat/default" None (Fulfilled (None : option string))).1
  = Fulfilled NotFound
  /\ List.filter (fun ev => match ev with RouteAgentRequest => true | _ => false end)
       (handle "/agents/chat/default" None (Fulfilled (None : option string))).2
     = [RouteAgentRequest].
Proof. apply (routing_ignores_the_key "/agents/chat/default" None (Fulfilled None)). discriminate. Defined.

End WorkerFacts.
